(** * HuggingSpace: the resilience layer over the storage backend

    A shallow embedding of [src/lib/supabase.ts], [src/lib/storage.ts] and of
    the merge step of the [useModelFiles] hook, with the properties the
    specification states about them.

    Asynchronous functions are modelled in a small state-and-exception monad
    over an explicit [World]: the module-level flag [isConnected], the clock
    read by [Date.now()], counters of the calls issued to the backend, and
    the console.  What the backend answers is given by oracles indexed by
    the number of the call.

    The model runs one call after the other.  Numbers that count (attempts,
    milliseconds of the clock) are integers; a backoff delay, which has the
    jitter of [Math.random()] in it, is a rational.  Writing to the console
    and to [process.stdout] / [process.stderr] appends to a log and does not
    fail.  Every query of a table settles, with a result or by rejecting; an
    operation handed to [withRetry] may also never settle. *)

From Stdlib Require Import ZArith QArith Qminmax Qround Lia List String Ascii.
From stdpp Require Import base option list gmap pretty.

Local Open Scope Z_scope.

(** ** JavaScript strings

    A JavaScript string is a sequence of UTF-16 code units. *)

Abbreviation jsstring := (list N).

Definition js (s : string) : jsstring :=
  map N_of_ascii (list_ascii_of_string s).
Arguments js s%_string.

(** [s.startsWith(pat)] and [s.includes(pat)]. *)
Fixpoint startsWith (s pat : jsstring) : bool :=
  match pat, s with
  | [], _ => true
  | p :: pat', c :: s' => (p =? c)%N && startsWith s' pat'
  | _ :: _, [] => false
  end.

Fixpoint includes (s pat : jsstring) : bool :=
  startsWith s pat ||
  match s with
  | [] => false
  | _ :: s' => includes s' pat
  end.

(** ECMAScript WhiteSpace and LineTerminator code points, the characters
    [String.prototype.trim] removes. *)
Definition isWhiteSpace (c : N) : bool :=
  ((9 <=? c) && (c <=? 13) || (c =? 32) || (c =? 160) || (c =? 5760)
   || (8192 <=? c) && (c <=? 8202) || (c =? 8232) || (c =? 8233)
   || (c =? 8239) || (c =? 8287) || (c =? 12288) || (c =? 65279))%N.

Fixpoint trimStart (s : jsstring) : jsstring :=
  match s with
  | [] => []
  | c :: s' => if isWhiteSpace c then trimStart s' else s
  end.

Definition trimEnd (s : jsstring) : jsstring := rev (trimStart (rev s)).

Definition trim (s : jsstring) : jsstring := trimEnd (trimStart s).

Definition slash : N := 47.
Definition isSlash (c : N) : bool := (c =? slash)%N.

(** [s.replace(/\/+/g, '/')]: scanning from the left, a greedy match of
    [/+] consumes a whole run of slashes and is replaced by one slash; the
    scan resumes after the match.  One unit of fuel per scanned position. *)
Fixpoint dropSlashes (s : jsstring) : jsstring :=
  match s with
  | [] => []
  | c :: s' => if isSlash c then dropSlashes s' else s
  end.

Fixpoint replaceSlashRuns (fuel : nat) (s : jsstring) : jsstring :=
  match fuel with
  | O => []
  | S fuel' =>
      match s with
      | [] => []
      | c :: s' =>
          if isSlash c then slash :: replaceSlashRuns fuel' (dropSlashes s')
          else c :: replaceSlashRuns fuel' s'
      end
  end.

Definition collapseSlashes (s : jsstring) : jsstring :=
  replaceSlashRuns (length s) s.

(** The number of bytes of the UTF-8 encoding of a string, the [size] of
    [new Blob([s])]: a surrogate pair encodes one code point in four bytes,
    a lone surrogate is replaced by U+FFFD (three bytes). *)
Definition isHighSurrogate (c : N) : bool := ((55296 <=? c) && (c <=? 56319))%N.
Definition isLowSurrogate (c : N) : bool := ((56320 <=? c) && (c <=? 57343))%N.

Fixpoint utf8Length (s : jsstring) : N :=
  match s with
  | [] => 0
  | c :: s' =>
      if (c <? 128)%N then 1 + utf8Length s'
      else if (c <? 2048)%N then 2 + utf8Length s'
      else if isHighSurrogate c then
        match s' with
        | d :: s'' =>
            if isLowSurrogate d then 4 + utf8Length s''
            else 3 + utf8Length s'
        | [] => 3
        end
      else 3 + utf8Length s'
  end%N.

(** ** Thrown values and completions *)

(** What a [throw] carries: an [Error] with its message, or any other value
    (kept as the text [String(value)] gives). *)
Inductive Thrown : Type :=
  | ErrorObj (message : jsstring)
  | NonError (repr : jsstring).

Inductive Completion (A : Type) : Type :=
  | Returned (a : A)
  | Threw (e : Thrown).
Arguments Returned {A} a.
Arguments Threw {A} e.

(** ** The world *)

Inductive Stream : Type :=
  | ConsoleLog | ConsoleWarn | ConsoleError | Stdout | Stderr.

(** What is written: a string, a thrown value handed over as it is, or a
    template literal with a thrown value in it, [`before${err}after`]; how
    the value prints (the name of an Error is part of it) is left to the
    console. *)
Inductive LogArg : Type :=
  | LStr (s : jsstring)
  | LErr (e : Thrown)
  | LTemplate (before : jsstring) (e : Thrown) (after : jsstring).

Record World : Type := mkWorld {
  now : Z;                        (* Date.now(), in milliseconds *)
  isConnected : bool;             (* let isConnected = false *)
  probesIssued : nat;             (* readiness probes on 'profiles' *)
  checksIssued : nat;             (* checkConnection queries on 'spaces' *)
  opsInvoked : nat;               (* operations invoked by withRetry *)
  randomsDrawn : nat;             (* calls of Math.random() *)
  sleeps : list Q;                (* every delay handed to sleep *)
  logs : list (Stream * list LogArg);
  processEnv : gmap jsstring jsstring;      (* process.env *)
  importMetaEnv : gmap jsstring jsstring    (* import.meta.env *)
}.

Definition initialWorld (penv menv : gmap jsstring jsstring) : World :=
  mkWorld 0 false 0 0 0 0 [] [] penv menv.

Definition setNow (t : Z) (w : World) : World :=
  mkWorld t (isConnected w) (probesIssued w) (checksIssued w) (opsInvoked w)
    (randomsDrawn w) (sleeps w) (logs w) (processEnv w) (importMetaEnv w).
Definition setConnected (b : bool) (w : World) : World :=
  mkWorld (now w) b (probesIssued w) (checksIssued w) (opsInvoked w)
    (randomsDrawn w) (sleeps w) (logs w) (processEnv w) (importMetaEnv w).
Definition setProbesIssued (n : nat) (w : World) : World :=
  mkWorld (now w) (isConnected w) n (checksIssued w) (opsInvoked w)
    (randomsDrawn w) (sleeps w) (logs w) (processEnv w) (importMetaEnv w).
Definition setChecksIssued (n : nat) (w : World) : World :=
  mkWorld (now w) (isConnected w) (probesIssued w) n (opsInvoked w)
    (randomsDrawn w) (sleeps w) (logs w) (processEnv w) (importMetaEnv w).
Definition setOpsInvoked (n : nat) (w : World) : World :=
  mkWorld (now w) (isConnected w) (probesIssued w) (checksIssued w) n
    (randomsDrawn w) (sleeps w) (logs w) (processEnv w) (importMetaEnv w).
Definition setRandomsDrawn (n : nat) (w : World) : World :=
  mkWorld (now w) (isConnected w) (probesIssued w) (checksIssued w)
    (opsInvoked w) n (sleeps w) (logs w) (processEnv w) (importMetaEnv w).
Definition setSleeps (l : list Q) (w : World) : World :=
  mkWorld (now w) (isConnected w) (probesIssued w) (checksIssued w)
    (opsInvoked w) (randomsDrawn w) l (logs w) (processEnv w)
    (importMetaEnv w).
Definition setLogs (l : list (Stream * list LogArg)) (w : World) : World :=
  mkWorld (now w) (isConnected w) (probesIssued w) (checksIssued w)
    (opsInvoked w) (randomsDrawn w) (sleeps w) l (processEnv w)
    (importMetaEnv w).

(** ** The monad of asynchronous computations

    A computation runs from a world to a completion and a new world; [None]
    is a loop that ran out of fuel. *)
Definition M (A : Type) : Type := World -> option (Completion A * World).

Definition ret {A} (a : A) : M A := fun w => Some (Returned a, w).
Definition throw {A} (e : Thrown) : M A := fun w => Some (Threw e, w).

Definition bind {A B} (m : M A) (k : A -> M B) : M B :=
  fun w =>
    match m w with
    | None => None
    | Some (Returned a, w') => k a w'
    | Some (Threw e, w') => Some (Threw e, w')
    end.

(** [try { body } catch (err) { handler }] *)
Definition tryCatch {A} (body : M A) (handler : Thrown -> M A) : M A :=
  fun w =>
    match body w with
    | None => None
    | Some (Returned a, w') => Some (Returned a, w')
    | Some (Threw e, w') => handler e w'
    end.

Declare Scope async_scope.
Delimit Scope async_scope with async.
Notation "x <- c1 ;; c2" := (bind c1 (fun x => c2))
  (at level 100, c1 at next level, right associativity) : async_scope.
Notation "c1 ;;; c2" := (bind c1 (fun _ => c2))
  (at level 100, right associativity) : async_scope.
Local Open Scope async_scope.

Definition dateNow : M Z := fun w => Some (Returned (now w), w).

Definition elapse (ms : Z) : M unit :=
  fun w => Some (Returned tt, setNow (now w + ms) w).

Definition emit (s : Stream) (args : list LogArg) : M unit :=
  fun w => Some (Returned tt, setLogs (logs w ++ [(s, args)]) w).

Definition mathRandom (random : nat -> Q) : M Q :=
  fun w =>
    Some (Returned (random (randomsDrawn w)),
          setRandomsDrawn (S (randomsDrawn w)) w).

(** Modelled from the spec: [sleep] of [src/utils/async], which is not part
    of the sources at hand.  The wrapper "backs off" by awaiting it: the
    promise resolves once the delay has passed (a timer counts whole
    milliseconds), and it never rejects. *)
Definition sleep (ms : Q) : M unit :=
  fun w =>
    Some (Returned tt,
          setSleeps (sleeps w ++ [ms]) (setNow (now w + Z.max 0 (Qfloor ms)) w)).

Definition ESC : jsstring := [27%N].
Definition LF : jsstring := [10%N].

Definition getWorld : M World := fun w => Some (Returned w, w).

Definition assignIsConnected (b : bool) : M unit :=
  fun w => Some (Returned tt, setConnected b w).

(** ** Environment resolver: [readEnvVariable] *)

(** Truthiness of [env[name]]: [undefined] and the empty string are falsy. *)
Definition truthyString (v : option jsstring) : bool :=
  match v with
  | Some (_ :: _) => true
  | Some [] | None => false
  end.

Definition readEnvVariable (systemVar viteVar : jsstring) (isRequired : bool)
  : M (option jsstring) :=
  w <- getWorld ;;
  if truthyString (processEnv w !! systemVar) then
    emit ConsoleLog
      [LStr (js "Using system environment variable for: " ++ systemVar)] ;;;
    emit Stdout
      [LStr (ESC ++ js "[32m[Terminal] Using system environment variable for: "
             ++ systemVar ++ ESC ++ js "[0m" ++ LF)] ;;;
    ret (processEnv w !! systemVar)
  else if truthyString (importMetaEnv w !! viteVar) then
    emit ConsoleLog
      [LStr (js "Falling back to .env variable for: " ++ viteVar)] ;;;
    emit Stdout
      [LStr (ESC ++ js "[33m[Terminal] Falling back to .env variable for: "
             ++ viteVar ++ ESC ++ js "[0m" ++ LF)] ;;;
    ret (importMetaEnv w !! viteVar)
  else if isRequired then
    let errMsg :=
      js "Missing required environment variable: '" ++ systemVar
      ++ js "' or '" ++ viteVar ++ js "'." in
    emit ConsoleError [LStr errMsg] ;;;
    emit Stderr
      [LStr (ESC ++ js "[31m[Terminal] " ++ errMsg ++ ESC ++ js "[0m" ++ LF)] ;;;
    throw (ErrorObj
             (errMsg
              ++ js " Please set it in your system environment or in your .env file."))
  else ret None.

(** ** The backend, as the client sees it *)

(** How a query on a table settles: [{ data, error }] with [error] null or
    not, or a rejected promise; and after how many milliseconds. *)
Inductive QueryReply : Type :=
  | QuerySettled (error : option Thrown)
  | QueryRejected (err : Thrown).

Record Query : Type := mkQuery { reply : QueryReply; latency : N }.

(** How the promise of an operation settles, and after how long; [Pending]
    is a promise that has not settled when the 10 second timer fires. *)
Inductive Settlement (T : Type) : Type :=
  | Resolves (result : T) (ms : N)
  | Rejects (err : Thrown) (ms : N)
  | Pending.
Arguments Resolves {T} result ms.
Arguments Rejects {T} err ms.
Arguments Pending {T}.

(** The discriminated [{ data, error }] result of a storage call. *)
Inductive Reply (D : Type) : Type :=
  | ReplyData (data : D)
  | ReplyError (error : Thrown).
Arguments ReplyData {D} data.
Arguments ReplyError {D} error.

Record Blob : Type := mkBlob { size : N; type : jsstring }.

Inductive Content : Type :=
  | Text (s : jsstring)
  | Binary (b : Blob).

Inductive StorageRequest : Type :=
  | Upload (path : jsstring) (body : Blob)
      (upsert : bool) (contentType cacheControl : jsstring)
  | Download (path : jsstring)
  | List (prefix : jsstring) (limit offset : Z) (sortColumn sortOrder : jsstring)
  | Remove (paths : list jsstring).

Definition BUCKET_NAME : jsstring := js "model-files".
Definition MAX_FILE_SIZE : Z := 500 * 1024 * 1024.

(** ** Storage paths: [buildStoragePath] *)

Definition buildStoragePath (userId modelId filename : jsstring)
  : Completion jsstring :=
  let cleanUserId := trim userId in
  let cleanModelId := trim modelId in
  let cleanFilename := trim filename in
  match cleanUserId, cleanModelId, cleanFilename with
  | _ :: _, _ :: _, _ :: _ =>
      Returned
        (collapseSlashes
           (cleanUserId ++ js "/models/" ++ cleanModelId ++ js "/"
            ++ cleanFilename))
  | _, _, _ => Threw (ErrorObj (js "Invalid path components"))
  end.

Definition liftCompletion {A} (c : Completion A) : M A := fun w => Some (c, w).

(** [s.replace(pat, '')] with a string pattern: the first occurrence of
    [pat] is removed. *)
Fixpoint removeFirst (s pat : jsstring) : jsstring :=
  if startsWith s pat then drop (length pat) s
  else
    match s with
    | [] => []
    | c :: s' => c :: removeFirst s' pat
    end.

(** ** File nodes and flat file records *)

Module Node.

Inductive NodeType : Type := file | directory.

(** [{ name, type, path, content?, size?, lastModified?, children? }] *)
#[warnings="-register-all"]
Inductive FileNode : Type :=
  mkFileNode (name : jsstring) (type : NodeType) (path : jsstring)
    (content : option jsstring) (size : option Z)
    (lastModified : option jsstring) (children : option (list FileNode)).

Definition name (f : FileNode) : jsstring :=
  match f with mkFileNode n _ _ _ _ _ _ => n end.
Definition type (f : FileNode) : NodeType :=
  match f with mkFileNode _ t _ _ _ _ _ => t end.
Definition path (f : FileNode) : jsstring :=
  match f with mkFileNode _ _ p _ _ _ _ => p end.
Definition content (f : FileNode) : option jsstring :=
  match f with mkFileNode _ _ _ c _ _ _ => c end.
Definition children (f : FileNode) : option (list FileNode) :=
  match f with mkFileNode _ _ _ _ _ _ ch => ch end.

Definition isFile (f : FileNode) : bool :=
  match type f with file => true | directory => false end.

(** The node without its subtree. *)
Definition withoutChildren (f : FileNode) : FileNode :=
  match f with
  | mkFileNode n t p c s lm _ => mkFileNode n t p c s lm None
  end.

(** The paths of the file nodes of a subtree, the node itself included. *)
Fixpoint filePaths (f : FileNode) : list jsstring :=
  match f with
  | mkFileNode _ t p _ _ _ ch =>
      (match t with file => [p] | directory => [] end)
      ++ match ch with
         | Some l =>
             (fix forest (l : list FileNode) : list jsstring :=
                match l with
                | [] => []
                | g :: l' => filePaths g ++ forest l'
                end) l
         | None => []
         end
  end.

Definition forestFilePaths (l : list FileNode) : list jsstring :=
  flat_map filePaths l.

(** The paths of the file nodes strictly below a node. *)
Definition nestedFilePaths (f : FileNode) : list jsstring :=
  match children f with
  | Some l => forestFilePaths l
  | None => []
  end.

End Node.

Module Flat.

(** [{ path, content }] *)
Record FlatRecord : Type := mkFlat { path : jsstring; content : jsstring }.

End Flat.

(** [f.content || '']: an absent and an empty content both give [''] *)
Definition contentOrEmpty (c : option jsstring) : jsstring :=
  match c with
  | Some (x :: s) => x :: s
  | Some [] | None => []
  end.

(** [current.map(f => ({ path: f.path, content: f.content || '' }))] *)
Definition flattenCurrent (current : list Node.FileNode) : list Flat.FlatRecord :=
  map (fun f => Flat.mkFlat (Node.path f) (contentOrEmpty (Node.content f)))
      current.

Section Hook.

(** [buildFileTree] of [src/utils/repository], which is not part of the
    sources at hand: the hook is modelled over any tree builder. *)
Variable buildFileTree : list Flat.FlatRecord -> list Node.FileNode.

(** The updater [addFile] hands to [setFiles]. *)
Definition addFileUpdater (filename content : jsstring)
  (current : list Node.FileNode) : list Node.FileNode :=
  buildFileTree (flattenCurrent current ++ [Flat.mkFlat filename content]).

(** The updater [uploadFiles] hands to [setFiles]; [results] are the
    [{ path, content }] of the uploads that succeeded. *)
Definition uploadFilesUpdater (results : list Flat.FlatRecord)
  (current : list Node.FileNode) : list Node.FileNode :=
  let currentFiles := flattenCurrent current in
  let newFiles :=
    map (fun r => Flat.mkFlat (Flat.path r) (Flat.content r)) results in
  buildFileTree (currentFiles ++ newFiles).

End Hook.

(** *** The file tree builder *)

(** [path.split('/')] *)
Fixpoint splitOn (sep : N) (s : jsstring) : list jsstring :=
  match s with
  | [] => [[]]
  | c :: s' =>
      if (c =? sep)%N then [] :: splitOn sep s'
      else
        match splitOn sep s' with
        | segment :: segments => (c :: segment) :: segments
        | [] => [[c]]
        end
  end.

Definition hasName (n : jsstring) (f : Node.FileNode) : bool :=
  bool_decide (Node.name f = n).

(** The first node that satisfies [p] is replaced by [f] of it; without
    such a node, [f None] is appended: siblings stay in insertion order. *)
Fixpoint upsert (p : Node.FileNode -> bool)
  (f : option Node.FileNode -> Node.FileNode) (l : list Node.FileNode)
  : list Node.FileNode :=
  match l with
  | [] => [f None]
  | g :: l' => if p g then f (Some g) :: l' else g :: upsert p f l'
  end.

Definition joinPath (dir segment : jsstring) : jsstring :=
  match dir with
  | [] => segment
  | _ :: _ => dir ++ [slash] ++ segment
  end.

Section Builder.

(** The timestamp a build stamps its file nodes with. *)
Variable timestamp : jsstring.

Definition fileNodeOf (segment : jsstring) (r : Flat.FlatRecord) : Node.FileNode :=
  Node.mkFileNode segment Node.file (Flat.path r) (Some (Flat.content r))
    (Some (Z.of_nat (length (Flat.content r)))) (Some timestamp) None.

(** Walks, or creates, the directory of every segment but the last, then
    inserts or overwrites the file node at the last segment. *)
Fixpoint insertRecord (segments : list jsstring) (dir : jsstring)
  (r : Flat.FlatRecord) (level : list Node.FileNode) : list Node.FileNode :=
  match segments with
  | [] => level
  | segment :: rest =>
      match rest with
      | [] => upsert (hasName segment) (fun _ => fileNodeOf segment r) level
      | _ :: _ =>
          upsert (hasName segment)
            (fun found =>
               match found with
               | Some (Node.mkFileNode n t p c s lm ch) =>
                   Node.mkFileNode n t p c s lm
                     (Some (insertRecord rest (joinPath dir segment) r
                              (match ch with Some l => l | None => [] end)))
               | None =>
                   Node.mkFileNode segment Node.directory
                     (joinPath dir segment) None None None
                     (Some (insertRecord rest (joinPath dir segment) r []))
               end)
            level
      end
  end.

(** Modelled from the spec: [buildFileTree] of [src/utils/repository], which
    is not part of the sources at hand.  "For each record, split path on /;
    walk/create directory nodes for every segment except the last, then
    insert or overwrite a file node at the final segment with fields
    {name: lastSegment, type: 'file', path, content, size: content.length,
    lastModified: current timestamp}"; siblings are in insertion order.  A
    node on the way is found by its name; a directory that is created gets
    the joined segments as its path. *)
Definition buildFileTree (records : list Flat.FlatRecord) : list Node.FileNode :=
  fold_left
    (fun tree r => insertRecord (splitOn slash (Flat.path r)) [] r tree)
    records [].

End Builder.

(** ** Notions the properties are stated with *)

Definition headIsSlash (s : jsstring) : bool :=
  match s with
  | d :: _ => isSlash d
  | [] => false
  end.

(** "Every run of repeated slashes collapsed to a single slash": a slash
    that another slash follows is dropped, so that of each run the last
    slash stays. *)
Fixpoint collapseRuns (s : jsstring) : jsstring :=
  match s with
  | [] => []
  | c :: s' =>
      if isSlash c && headIsSlash s' then collapseRuns s'
      else c :: collapseRuns s'
  end.

(** No slash is followed by a slash. *)
Fixpoint noSlashRun (s : jsstring) : bool :=
  match s with
  | [] => true
  | c :: s' => negb (isSlash c && headIsSlash s') && noSlashRun s'
  end.

Definition noSlash (s : jsstring) : bool := forallb (fun c => negb (isSlash c)) s.

Definition startsWithWhiteSpace (s : jsstring) : bool :=
  match s with
  | c :: _ => isWhiteSpace c
  | [] => false
  end.

(** [t] is [s] trimmed: [s] without the white space at its two ends. *)
Definition trimmedOf (s t : jsstring) : Prop :=
  exists l r,
    s = l ++ t ++ r
    /\ forallb isWhiteSpace l = true
    /\ forallb isWhiteSpace r = true
    /\ startsWithWhiteSpace t = false
    /\ startsWithWhiteSpace (rev t) = false.

Definition setProcessEnv (env : gmap jsstring jsstring) (w : World) : World :=
  mkWorld (now w) (isConnected w) (probesIssued w) (checksIssued w)
    (opsInvoked w) (randomsDrawn w) (sleeps w) (logs w) env (importMetaEnv w).
Definition setImportMetaEnv (env : gmap jsstring jsstring) (w : World) : World :=
  mkWorld (now w) (isConnected w) (probesIssued w) (checksIssued w)
    (opsInvoked w) (randomsDrawn w) (sleeps w) (logs w) (processEnv w) env.

(** What a caller observes of a run: the completion and the console. *)
Definition observed {A} (r : option (Completion A * World))
  : option (Completion A * list (Stream * list LogArg)) :=
  match r with
  | Some (c, w') => Some (c, logs w')
  | None => None
  end.

(** ** Sample inputs *)

Module Sample.

(** A backend that answers every probe, after 20 ms. *)
Definition probeUp (n : nat) : Query := mkQuery (QuerySettled None) 20.

(** A backend whose first two probes fail. *)
Definition probeUpAtThird (n : nat) : Query :=
  mkQuery
    (if (n <? 2)%nat
     then QuerySettled (Some (NonError (js "[object Object]")))
     else QuerySettled None)
    20.

(** A backend that never answers a probe without error. *)
Definition probeDown (n : nat) : Query :=
  mkQuery (QueryRejected (ErrorObj (js "Failed to fetch"))) 20.

Definition noJitter (n : nat) : Q := 0%Q.

(** [null] is [None]; a string is truthy when it is not empty. *)
Definition truthyOrNull (v : option jsstring) : bool := truthyString v.

Definition alwaysFailedToFetch (n : nat) : Settlement (option jsstring) :=
  Rejects (ErrorObj (js "TypeError: Failed to fetch")) 30.

Definition alwaysPermissionDenied (n : nat) : Settlement (option jsstring) :=
  Rejects (ErrorObj (js "permission denied")) 30.

Definition alwaysNull (n : nat) : Settlement (option jsstring) :=
  Resolves None 30.

Definition world0 : World := initialWorld ∅ ∅.

Definition connectedWorld : World := setConnected true world0.

Definition bigBlob : Content :=
  Binary (mkBlob 524288001 (js "application/octet-stream")).

Definition noUpload (n : nat) (bucket : jsstring) (r : StorageRequest)
  : Settlement (Reply jsstring) := Pending.

(** [a/] with the file [a/b.txt] in it, and a file [README.md]. *)
Definition tree : list Node.FileNode :=
  [ Node.mkFileNode (js "a") Node.directory (js "a") None None None
      (Some [ Node.mkFileNode (js "b.txt") Node.file (js "a/b.txt")
                (Some (js "x")) (Some 1) (Some (js "t0")) None ]);
    Node.mkFileNode (js "README.md") Node.file (js "README.md")
      (Some (js "hi")) (Some 2) (Some (js "t0")) None ].

Definition dirA : Node.FileNode :=
  Node.mkFileNode (js "a") Node.directory (js "a") None None None
    (Some [ Node.mkFileNode (js "b.txt") Node.file (js "a/b.txt")
              (Some (js "x")) (Some 1) (Some (js "t0")) None ]).

End Sample.

(** ** The hooks of [useModelFiles] and the authentication context

    The state a hook keeps with [useState] is a record, and a call of its
    setter is an update of the record.  Calls that run one after the other
    are modelled over the world, as the storage functions are.  Where a
    hook starts calls that run side by side ([Promise.all]), what each of
    them completes with is an argument of the model.  What the hooks write
    to the console is left out. *)

Module UseModelFiles.

(** The authenticated user; the hooks read [user.id]. *)
Record User : Type := mkUser { id : jsstring }.

(** [{ files, loading, error }]; at first [[]], [true] and [null]. *)
Record State : Type := mkState {
  files : list Node.FileNode;
  loading : bool;
  error : option Thrown
}.

Definition initial : State := mkState [] true None.

Definition setFiles (fs : list Node.FileNode) (s : State) : State :=
  mkState fs (loading s) (error s).
Definition setLoading (b : bool) (s : State) : State :=
  mkState (files s) b (error s).
Definition setError (e : option Thrown) (s : State) : State :=
  mkState (files s) (loading s) e.

End UseModelFiles.

(** [err instanceof Error ? err : new Error(fallback)] *)
Definition orError (err : Thrown) (fallback : jsstring) : Thrown :=
  match err with
  | ErrorObj _ => err
  | NonError _ => ErrorObj fallback
  end.

(** A file of a [FileList]: its name, and what [await file.text()]
    completes with. *)
Record PickedFile : Type := mkPickedFile {
  name : jsstring;
  text : Completion jsstring
}.

Section UseModelFilesParallel.

Import UseModelFiles.

Variable buildFileTree : list Flat.FlatRecord -> list Node.FileNode.

(** What [listFiles(userId, modelId)] completes with, and what the i-th
    [downloadFile(userId, modelId, path)] and the i-th
    [uploadFile(userId, modelId, filename, content)] complete with. *)
Variable listed : jsstring -> jsstring -> Completion (list jsstring).
Variable downloaded : nat -> jsstring -> jsstring -> jsstring -> Completion jsstring.
Variable uploaded
  : nat -> jsstring -> jsstring -> jsstring -> jsstring -> Completion jsstring.

(** Of the promises handed to [Promise.all] that reject, the reason of
    the one that is seen to reject first. *)
Variable firstRejection : list Thrown -> Thrown.

(** The callback of [filePaths.map] in [loadFiles]: a download that fails
    gives the path with empty content. *)
Definition loadedFile (userId modelId : jsstring) (i : nat) (path : jsstring)
  : Flat.FlatRecord :=
  match downloaded i userId modelId path with
  | Returned content => Flat.mkFlat path content
  | Threw _ => Flat.mkFlat path []
  end.

(** [loadFiles] of the effect of [useModelFiles]. *)
Definition loadFiles (user : option User) (modelId : jsstring) (s : State)
  : State :=
  match user, modelId with
  | Some u, _ :: _ =>
      let s1 := setError None (setLoading true s) in
      let s2 :=
        match listed (id u) modelId with
        | Returned filePaths =>
            let fileContents := imap (loadedFile (id u) modelId) filePaths in
            setFiles (buildFileTree fileContents) s1
        | Threw err =>
            setError (Some (orError err (js "Failed to load files"))) s1
        end in
      setLoading false s2
  | _, _ => setFiles [] s
  end.

(** The loop of [uploadFiles] over the file list: a file whose text
    cannot be read is skipped; for the others an upload is started.  The
    result is the list of the uploads started: file name, content, and
    what the upload completes with. *)
Fixpoint startUploads (userId modelId : jsstring) (i : nat)
  (fileList : list PickedFile)
  : list (jsstring * jsstring * Completion jsstring) :=
  match fileList with
  | [] => []
  | f :: rest =>
      match text f with
      | Returned content =>
          (name f, content, uploaded i userId modelId (name f) content)
          :: startUploads userId modelId (S i) rest
      | Threw _ => startUploads userId modelId (S i) rest
      end
  end.

Definition rejections (uploads : list (jsstring * jsstring * Completion jsstring))
  : list Thrown :=
  omap (fun u => match snd u with Threw e => Some e | Returned _ => None end)
       uploads.

(** [uploadFiles] *)
Definition uploadFiles (user : option User) (modelId : jsstring)
  (fileList : list PickedFile) (s : State) : Completion unit * State :=
  match user with
  | None => (Threw (ErrorObj (js "Not authenticated")), s)
  | Some u =>
      let s1 := setLoading true s in
      let uploads := startUploads (id u) modelId 0 fileList in
      match rejections uploads with
      | [] =>
          let results :=
            map (fun u => Flat.mkFlat (fst (fst u)) (snd (fst u))) uploads in
          (Returned tt,
           setLoading false
             (setFiles (uploadFilesUpdater buildFileTree results (files s1)) s1))
      | e :: es =>
          let error :=
            orError (firstRejection (e :: es)) (js "Failed to upload files") in
          (Threw error, setLoading false (setError (Some error) s1))
      end
  end.

End UseModelFilesParallel.

Module Auth.

(** [{ user, loading, error }] of the provider, and the [mounted] flag of
    its effect. *)
Record State : Type := mkState {
  user : option UseModelFiles.User;
  loading : bool;
  error : option Thrown;
  mounted : bool
}.

Definition initial : State := mkState None true None true.

Definition setUser (u : option UseModelFiles.User) (s : State) : State :=
  mkState u (loading s) (error s) (mounted s).
Definition setLoading (b : bool) (s : State) : State :=
  mkState (user s) b (error s) (mounted s).
Definition setError (e : option Thrown) (s : State) : State :=
  mkState (user s) (loading s) e (mounted s).

(** The cleanup of the effect: [mounted = false]. *)
Definition cleanup (s : State) : State :=
  mkState (user s) (loading s) (error s) false.

(** [{ data: { session }, error }] of [getSession]; [session?.user ?? null]
    is the user of the session, if there is a session. *)
Record SessionReply : Type := mkSessionReply {
  sessionUser : option UseModelFiles.User;
  sessionError : option Thrown
}.

(** The part of [getInitialSession] after the connection was awaited. *)
Definition adoptSession (getSession : Completion SessionReply) (s : State)
  : State :=
  let failed (err : Thrown) :=
    let s1 :=
      if mounted s
      then setError (Some (orError err (js "Failed to get session"))) s
      else s in
    if mounted s1 then setLoading false s1 else s1 in
  match getSession with
  | Returned reply =>
      match sessionError reply with
      | Some error => failed error
      | None =>
          let s1 :=
            if mounted s then setError None (setUser (sessionUser reply) s)
            else s in
          if mounted s1 then setLoading false s1 else s1
      end
  | Threw err => failed err
  end.

(** The callback given to [onAuthStateChange]. *)
Definition onAuthStateChange (session : option UseModelFiles.User) (s : State)
  : State :=
  if mounted s
  then setError None (setLoading false (setUser session s))
  else s.

(** [signIn], [signUp] and [signOut] are one text but for the call and
    the message: [result] is what the call completes with, its
    [{ error }] or a rejection. *)
Definition request (fallback : jsstring) (result : Completion (option Thrown))
  (s : State) : Completion unit * State :=
  let s1 := setLoading true s in
  match result with
  | Returned None => (Returned tt, setLoading false (setError None s1))
  | Returned (Some error) => (Threw (orError error fallback), setLoading false s1)
  | Threw err => (Threw (orError err fallback), setLoading false s1)
  end.

Definition signIn (signInWithPassword : jsstring -> jsstring -> Completion (option Thrown))
  (email password : jsstring) (s : State) : Completion unit * State :=
  request (js "Failed to sign in") (signInWithPassword email password) s.

Definition signUp (authSignUp : jsstring -> jsstring -> Completion (option Thrown))
  (email password : jsstring) (s : State) : Completion unit * State :=
  request (js "Failed to sign up") (authSignUp email password) s.

Definition signOut (authSignOut : Completion (option Thrown)) (s : State)
  : Completion unit * State :=
  request (js "Failed to sign out") authSignOut s.

End Auth.

(** ** More sample inputs *)

Module Cases.


(** An operation that fails twice on a network error, then resolves. *)
Definition flaky (n : nat) : Settlement (option jsstring) :=
  if (n <? 2)%nat
  then Rejects (ErrorObj (js "NetworkError when attempting to fetch resource.")) 30
  else Resolves (Some (js "ok")) 30.

Definition hangs (n : nat) : Settlement (option jsstring) := Pending.

(** A storage backend that stores what it is sent, and one that replies
    with an error whose message reads like a network failure. *)
Definition uploadStores (n : nat) (bucket : jsstring) (r : StorageRequest)
  : Settlement (Reply jsstring) :=
  match r with
  | Upload path _ _ _ _ => Resolves (ReplyData path) 40
  | _ => Pending
  end.

Definition uploadRefused (n : nat) (bucket : jsstring) (r : StorageRequest)
  : Settlement (Reply jsstring) :=
  Resolves (ReplyError (ErrorObj (js "Failed to fetch"))) 40.

Definition downloadGives (n : nat) (bucket : jsstring) (r : StorageRequest)
  : Settlement (Reply jsstring) :=
  Resolves (ReplyData (js "content")) 40.

Definition removeDone (n : nat) (bucket : jsstring) (r : StorageRequest)
  : Settlement (Reply unit) :=
  Resolves (ReplyData tt) 40.

(** A listing of full paths, the folder itself among them. *)
Definition listsFullPaths (n : nat) (bucket : jsstring) (r : StorageRequest)
  : Settlement (Reply (list jsstring)) :=
  Resolves
    (ReplyData
       (map (fun name => (js "u1" ++ js "/models/" ++ js "m1" ++ js "/") ++ name)
            [js "a.txt"; []; js "b.txt"]))
    40.

Definition alice : UseModelFiles.User := UseModelFiles.mkUser (js "u1").

Definition anyTree (records : list Flat.FlatRecord) : list Node.FileNode :=
  buildFileTree (js "t1") records.

Definition listsTwo (userId modelId : jsstring) : Completion (list jsstring) :=
  Returned [js "a.txt"; js "b.txt"].

(** The download of [b.txt] fails. *)
Definition downloadsFirst (i : nat) (userId modelId path : jsstring)
  : Completion jsstring :=
  match i with
  | O => Returned (js "x")
  | S _ => Threw (ErrorObj (js "Object not found"))
  end.

(** The second upload fails. *)
Definition uploadsFirst (i : nat) (userId modelId filename content : jsstring)
  : Completion jsstring :=
  match i with
  | 1%nat => Threw (NonError (js "[object Object]"))
  | _ => Returned (userId ++ js "/models/" ++ modelId ++ js "/" ++ filename)
  end.

Definition uploadsAll (i : nat) (userId modelId filename content : jsstring)
  : Completion jsstring :=
  Returned (userId ++ js "/models/" ++ modelId ++ js "/" ++ filename).

Definition firstOf (l : list Thrown) : Thrown :=
  match l with
  | e :: _ => e
  | [] => NonError []
  end.

Definition picked : list PickedFile :=
  [ mkPickedFile (js "a.txt") (Returned (js "x"));
    mkPickedFile (js "b.txt") (Returned (js "y")) ].

(** The text of the second file cannot be read. *)
Definition pickedUnreadable : list PickedFile :=
  [ mkPickedFile (js "a.txt") (Returned (js "x"));
    mkPickedFile (js "b.bin") (Threw (ErrorObj (js "NotReadableError"))) ].

End Cases.

Section Backend.

(** The answer to the n-th readiness probe on [profiles], to the n-th
    query of [checkConnection] on [spaces], the n-th value of
    [Math.random()], and how the n-th storage call settles. *)
Variable probeReply : nat -> Query.
Variable spacesReply : nat -> Query.
Variable random : nat -> Q.
Variable storageUpload
  : nat -> jsstring -> StorageRequest -> Settlement (Reply jsstring).
Variable storageDownload
  : nat -> jsstring -> StorageRequest -> Settlement (Reply jsstring).
Variable storageList
  : nat -> jsstring -> StorageRequest -> Settlement (Reply (list jsstring)).
Variable storageRemove
  : nat -> jsstring -> StorageRequest -> Settlement (Reply unit).

(** [await supabase.from('profiles').select('id').limit(1)] *)
Definition queryProfiles : M (option Thrown) :=
  fun w =>
    let q := probeReply (probesIssued w) in
    let w' := setNow (now w + Z.of_N (latency q))
                (setProbesIssued (S (probesIssued w)) w) in
    match reply q with
    | QuerySettled error => Some (Returned error, w')
    | QueryRejected err => Some (Threw err, w')
    end.

(** [await supabase.from('spaces').select('id').limit(1).maybeSingle()] *)
Definition querySpaces : M (option Thrown) :=
  fun w =>
    let q := spacesReply (checksIssued w) in
    let w' := setNow (now w + Z.of_N (latency q))
                (setChecksIssued (S (checksIssued w)) w) in
    match reply q with
    | QuerySettled error => Some (Returned error, w')
    | QueryRejected err => Some (Threw err, w')
    end.

(** *** [waitForConnection] *)

(** The [while] loop; [Some b] from the body of an iteration is
    [return b].  Every iteration sleeps 1000 ms, so the loop ends; the
    fuel bounds the number of iterations. *)
Fixpoint waitLoop (fuel : nat) (timeout start : Z) : M bool :=
  match fuel with
  | O => fun _ => None
  | S fuel' =>
      t <- dateNow ;;
      if t - start <? timeout then
        returned <-
          tryCatch
            (error <- queryProfiles ;;
             match error with
             | None => assignIsConnected true ;;; ret (Some true)
             | Some _ => ret None
             end)
            (fun err =>
               emit ConsoleWarn [LStr (js "Connection check failed:"); LErr err] ;;;
               emit Stdout
                 [LTemplate (ESC ++ js "[33m[Terminal] Connection check failed: ")
                    err (ESC ++ js "[0m" ++ LF)] ;;;
               ret None) ;;
        match returned with
        | Some b => ret b
        | None => sleep 1000 ;;; waitLoop fuel' timeout start
        end
      else ret false
  end.

Definition waitFuel (timeout : Z) : nat := Z.to_nat (timeout / 1000) + 2.

Definition waitForConnection (timeout : Z) : M bool :=
  start <- dateNow ;;
  waitLoop (waitFuel timeout) timeout start.

(** *** [checkConnection] *)
Definition checkConnection : M bool :=
  tryCatch
    (error <- querySpaces ;;
     ret (match error with None => true | Some _ => false end))
    (fun err =>
       emit ConsoleError [LStr (js "Check connection failed:"); LErr err] ;;;
       emit Stderr
         [LTemplate (ESC ++ js "[31m[Terminal] Check connection failed: ")
            err (ESC ++ js "[0m" ++ LF)] ;;;
       ret false).

(** *** [withRetry] *)

Definition isRetryableError (err : Thrown) : bool :=
  match err with
  | ErrorObj message =>
      includes message (js "Failed to fetch")
      || includes message (js "NetworkError")
      || includes message (js "network timeout")
      || includes message (js "Request timeout")
      || includes message (js "Connection refused")
  | NonError _ => false
  end.

(** [Math.min(baseDelay * Math.pow(2, attempt - 1) + Math.random() * baseDelay, 15000)] *)
Definition backoffDelay (baseDelay attempt : Z) (rnd : Q) : Q :=
  Qmin (inject_Z baseDelay * Qpower 2 (attempt - 1) + rnd * inject_Z baseDelay)
       15000.

(** The attempts of [for (let attempt = 1; attempt <= maxRetries; attempt++)]. *)
Definition attemptsUpTo (maxRetries : Z) : list Z :=
  map Z.of_nat (seq 1 (Z.to_nat maxRetries)).

(** The world after an attempt: the operation was invoked once more and
    the race took [ms]. *)
Definition attempted (ms : Z) (w : World) : World :=
  setNow (now w + ms) (setOpsInvoked (S (opsInvoked w)) w).

Section WithRetry.

Context {T : Type}.
(** [!result] is [negb (truthy result)]. *)
Variable truthy : T -> bool.

(** [Promise.race([operation(), timeoutPromise])]: what the race settles
    with, and when. *)
Definition raceOutcome (s : Settlement T) : Completion T * Z :=
  match s with
  | Resolves result ms =>
      if Z.of_N ms <? 10000 then (Returned result, Z.of_N ms)
      else (Threw (ErrorObj (js "Request timeout")), 10000)
  | Rejects err ms =>
      if Z.of_N ms <? 10000 then (Threw err, Z.of_N ms)
      else (Threw (ErrorObj (js "Request timeout")), 10000)
  | Pending => (Threw (ErrorObj (js "Request timeout")), 10000)
  end.

Definition raceWithTimeout (operation : nat -> Settlement T) : M T :=
  fun w =>
    let '(c, ms) := raceOutcome (operation (opsInvoked w)) in
    Some (c, setNow (now w + ms) (setOpsInvoked (S (opsInvoked w)) w)).

(** One iteration per attempt; [Some result] from the body is
    [return result], [None] goes on to the next attempt. *)
Fixpoint retryLoop (operation : nat -> Settlement T)
  (maxRetries baseDelay : Z) (attempts : list Z) : M T :=
  match attempts with
  | [] => throw (ErrorObj (js "Operation failed after multiple retries"))
  | attempt :: rest =>
      returned <-
        tryCatch
          (result <- raceWithTimeout operation ;;
           if negb (truthy result)
           then throw (ErrorObj (js "Operation returned no data"))
           else ret (Some result))
          (fun err =>
             if isRetryableError err then
               let warnMsg :=
                 js "Network error (attempt " ++ js (pretty attempt)
                 ++ js "/" ++ js (pretty maxRetries) ++ js "): "
                 ++ match err with
                    | ErrorObj message => message
                    | NonError _ => []
                    end in
               emit ConsoleWarn [LStr warnMsg] ;;;
               emit Stdout
                 [LStr (ESC ++ js "[33m[Terminal] " ++ warnMsg ++ ESC
                        ++ js "[0m" ++ LF)] ;;;
               if attempt =? maxRetries then throw err
               else
                 rnd <- mathRandom random ;;
                 sleep (backoffDelay baseDelay attempt rnd) ;;;
                 ret None
             else throw err) ;;
      match returned with
      | Some result => ret result
      | None => retryLoop operation maxRetries baseDelay rest
      end
  end.

(** [if (!isConnected) { await waitForConnection(); }] *)
Definition ensureConnection : M unit :=
  w <- getWorld ;;
  if negb (isConnected w) then waitForConnection 5000 ;;; ret tt
  else ret tt.

Definition withRetry (operation : nat -> Settlement T)
  (maxRetries baseDelay : Z) : M T :=
  ensureConnection ;;;
  retryLoop operation maxRetries baseDelay (attemptsUpTo maxRetries).

End WithRetry.

(** *** Storage access functions *)

(** A [{ data, error }] object is truthy. *)
Definition truthyReply {D} (r : Reply D) : bool := true.

(** [typeof content === 'string' ? new Blob([content], { type: 'text/plain' }) : content] *)
Definition toBlob (content : Content) : Blob :=
  match content with
  | Text s => mkBlob (utf8Length s) (js "text/plain")
  | Binary b => b
  end.

Definition uploadFile (userId modelId filename : jsstring) (content : Content)
  : M jsstring :=
  storagePath <- liftCompletion (buildStoragePath userId modelId filename) ;;
  let fileContent := toBlob content in
  if MAX_FILE_SIZE <? Z.of_N (size fileContent) then
    throw (ErrorObj
             (js "File size exceeds maximum limit of "
              ++ js (pretty (MAX_FILE_SIZE / (1024 * 1024))) ++ js "MB"))
  else
    r <- withRetry truthyReply
           (fun n =>
              storageUpload n BUCKET_NAME
                (Upload storagePath fileContent true
                   (match content with
                    | Text _ => js "text/plain"
                    | Binary b => type b
                    end)
                   (js "3600")))
           5 1000 ;;
    match r with
    | ReplyError error => throw error
    | ReplyData data => ret data
    end.

Definition downloadFile (userId modelId filename : jsstring) : M jsstring :=
  storagePath <- liftCompletion (buildStoragePath userId modelId filename) ;;
  r <- withRetry truthyReply
         (fun n => storageDownload n BUCKET_NAME (Download storagePath))
         5 1000 ;;
  match r with
  | ReplyError error => throw error
  | ReplyData text => ret text
  end.

Definition listFiles (userId modelId : jsstring) : M (list jsstring) :=
  let prefix := userId ++ js "/models/" ++ modelId ++ js "/" in
  r <- withRetry truthyReply
         (fun n =>
            storageList n BUCKET_NAME
              (List prefix 100 0 (js "name") (js "asc")))
         5 1000 ;;
  match r with
  | ReplyError error => throw error
  | ReplyData names =>
      ret (filter (fun s => s <> [])
             (map (fun name => removeFirst name prefix) names))
  end.

Definition deleteFile (userId modelId filename : jsstring) : M unit :=
  storagePath <- liftCompletion (buildStoragePath userId modelId filename) ;;
  r <- withRetry truthyReply
         (fun n => storageRemove n BUCKET_NAME (Remove [storagePath]))
         5 1000 ;;
  match r with
  | ReplyError error => throw error
  | ReplyData _ => ret tt
  end.

(** *** The calls a client of the modules can make *)

Inductive ModuleCall : Type :=
  | CallReadEnvVariable (systemVar viteVar : jsstring) (isRequired : bool)
  | CallWaitForConnection (timeout : Z)
  | CallWithRetry (T : Type) (truthy : T -> bool)
      (operation : nat -> Settlement T) (maxRetries baseDelay : Z)
  | CallCheckConnection
  | CallUploadFile (userId modelId filename : jsstring) (content : Content)
  | CallDownloadFile (userId modelId filename : jsstring)
  | CallListFiles (userId modelId : jsstring)
  | CallDeleteFile (userId modelId filename : jsstring).

(** The world a computation leaves, whatever it completes with. *)
Definition worldAfter {A} (m : M A) (w : World) : option World :=
  match m w with
  | Some (_, w') => Some w'
  | None => None
  end.

Definition runCall (c : ModuleCall) (w : World) : option World :=
  match c with
  | CallReadEnvVariable systemVar viteVar isRequired =>
      worldAfter (readEnvVariable systemVar viteVar isRequired) w
  | CallWaitForConnection timeout => worldAfter (waitForConnection timeout) w
  | CallWithRetry T truthy operation maxRetries baseDelay =>
      worldAfter (withRetry truthy operation maxRetries baseDelay) w
  | CallCheckConnection => worldAfter checkConnection w
  | CallUploadFile userId modelId filename content =>
      worldAfter (uploadFile userId modelId filename content) w
  | CallDownloadFile userId modelId filename =>
      worldAfter (downloadFile userId modelId filename) w
  | CallListFiles userId modelId => worldAfter (listFiles userId modelId) w
  | CallDeleteFile userId modelId filename =>
      worldAfter (deleteFile userId modelId filename) w
  end.

Fixpoint runCalls (cs : list ModuleCall) (w : World) : option World :=
  match cs with
  | [] => Some w
  | c :: cs' =>
      match runCall c w with
      | Some w' => runCalls cs' w'
      | None => None
      end
  end.

(** *** What the readiness probes answer *)

Definition probeSucceeds (k : nat) : Prop :=
  reply (probeReply k) = QuerySettled None.

(** The time [n] failed probes take, from probe [k] on: the latency of each
    and the 1000 ms slept after it. *)
Fixpoint failedSpan (k n : nat) : Z :=
  match n with
  | O => 0
  | S n' => Z.of_N (latency (probeReply k)) + 1000 + failedSpan (S k) n'
  end.

(** The one-way latch: from [w] to [w'] no probe is forgotten, a set flag
    stays set, and a flag that is set in [w'] was set already or a readiness
    probe issued in between succeeded. *)
Definition latchStep (w w' : World) : Prop :=
  (probesIssued w <= probesIssued w')%nat
  /\ (isConnected w = true -> isConnected w' = true)
  /\ (isConnected w' = true ->
      isConnected w = true
      \/ exists k, (probesIssued w <= k < probesIssued w')%nat /\ probeSucceeds k).

(** A computation that always completes, by a step of the latch. *)
Definition runsLatched {A} (m : M A) : Prop :=
  forall w, exists c w', m w = Some (c, w') /\ latchStep w w'.

(** What [waitForConnection] leaves behind: started in [w], with [start]
    the time the loop was entered, it returns [b] in the world [w'] after
    [n] failed probes, each issued inside the window and followed by a
    sleep of 1000 ms.  With [b = true] the next probe, still issued inside
    the window, succeeded, the flag is set and nothing was awaited after
    it; with [b = false] the flag is as it was and the window has passed. *)
Definition waitOutcome (timeout start : Z) (w : World) (b : bool) (w' : World)
  : Prop :=
  exists n : nat,
    (forall i, (i < n)%nat ->
       ~ probeSucceeds (probesIssued w + i)
       /\ now w + failedSpan (probesIssued w) i - start < timeout)
    /\ sleeps w' = sleeps w ++ repeat 1000%Q n
    /\ opsInvoked w' = opsInvoked w
    /\ checksIssued w' = checksIssued w
    /\ randomsDrawn w' = randomsDrawn w
    /\ if b then
         probeSucceeds (probesIssued w + n)
         /\ now w + failedSpan (probesIssued w) n - start < timeout
         /\ probesIssued w' = (probesIssued w + n + 1)%nat
         /\ isConnected w' = true
         /\ now w' = now w + failedSpan (probesIssued w) n
                     + Z.of_N (latency (probeReply (probesIssued w + n)))
       else
         probesIssued w' = (probesIssued w + n)%nat
         /\ isConnected w' = isConnected w
         /\ now w' = now w + failedSpan (probesIssued w) n
         /\ timeout <= now w' - start.

(** *** The hooks that call the storage functions one at a time *)

(** [addFile] of [useModelFiles]; [content] is a string. *)
Definition addFile
  (buildFileTree : list Flat.FlatRecord -> list Node.FileNode)
  (user : option UseModelFiles.User) (modelId filename content : jsstring)
  (s : UseModelFiles.State) (w : World)
  : option (Completion unit * UseModelFiles.State * World) :=
  match user with
  | None => Some (Threw (ErrorObj (js "Not authenticated")), s, w)
  | Some u =>
      let s1 := UseModelFiles.setLoading true s in
      match uploadFile (UseModelFiles.id u) modelId filename (Text content) w with
      | None => None
      | Some (Returned _, w') =>
          Some (Returned tt,
                UseModelFiles.setLoading false
                  (UseModelFiles.setFiles
                     (addFileUpdater buildFileTree filename content
                        (UseModelFiles.files s1))
                     s1),
                w')
      | Some (Threw err, w') =>
          let error := orError err (js "Failed to create file") in
          Some (Threw error,
                UseModelFiles.setLoading false
                  (UseModelFiles.setError (Some error) s1),
                w')
      end
  end.

(** [{ loading, error }] of [useUpdateModelFile]; at first [false] and
    [null]. *)
Record UpdateState : Type := mkUpdateState {
  updateLoading : bool;
  updateError : option Thrown
}.

(** [updateFile] of [useUpdateModelFile] *)
Definition updateFile (user : option UseModelFiles.User)
  (modelId path content : jsstring) (s : UpdateState) (w : World)
  : option (Completion unit * UpdateState * World) :=
  match user with
  | None => Some (Threw (ErrorObj (js "Not authenticated")), s, w)
  | Some u =>
      let s1 := mkUpdateState true (updateError s) in
      match uploadFile (UseModelFiles.id u) modelId path (Text content) w with
      | None => None
      | Some (Returned _, w') =>
          Some (Returned tt, mkUpdateState false (updateError s1), w')
      | Some (Threw err, w') =>
          let error := orError err (js "Failed to update file") in
          Some (Threw error, mkUpdateState false (Some error), w')
      end
  end.

(** [getInitialSession] of the authentication provider: the connection is
    awaited, then the session is asked for. *)
Definition getInitialSession (getSession : Completion Auth.SessionReply)
  (s : Auth.State) (w : World)
  : option (Completion unit * Auth.State * World) :=
  match waitForConnection 5000 w with
  | None => None
  | Some (Threw e, w') => Some (Threw e, s, w')
  | Some (Returned _, w') => Some (Returned tt, Auth.adoptSession getSession s, w')
  end.

(** * Properties *)

Set Default Proof Using "Type".

(** ** The readiness loop *)

Lemma waitLoop_step (fuel : nat) (timeout start : Z) (w : World) :
  waitLoop (S fuel) timeout start w =
  if now w - start <? timeout then
    let q := probeReply (probesIssued w) in
    let w1 := setNow (now w + Z.of_N (latency q))
                (setProbesIssued (S (probesIssued w)) w) in
    match reply q with
    | QuerySettled None => Some (Returned true, setConnected true w1)
    | QuerySettled (Some _) =>
        waitLoop fuel timeout start
          (setSleeps (sleeps w1 ++ [1000%Q]) (setNow (now w1 + 1000) w1))
    | QueryRejected err =>
        let w2 :=
          setLogs
            (logs w1
             ++ [(ConsoleWarn, [LStr (js "Connection check failed:"); LErr err])]
             ++ [(Stdout,
                  [LTemplate
                     (ESC ++ js "[33m[Terminal] Connection check failed: ")
                     err (ESC ++ js "[0m" ++ LF)])])
            w1 in
        waitLoop fuel timeout start
          (setSleeps (sleeps w2 ++ [1000%Q]) (setNow (now w2 + 1000) w2))
    end
  else Some (Returned false, w).
Proof.
  cbn [waitLoop]. unfold bind at 1. cbn [dateNow].
  destruct (now w - start <? timeout); [|reflexivity].
  unfold bind, tryCatch, queryProfiles.
  destruct (reply (probeReply (probesIssued w))) as [[e|]|err]; cbn.
  - reflexivity.
  - reflexivity.
  - rewrite <- app_assoc. reflexivity.
Qed.

Lemma failedSpan_nonneg (k n : nat) : 0 <= failedSpan k n.
Proof.
  revert k. induction n as [|n IH]; intros k; cbn [failedSpan]; [lia|].
  specialize (IH (S k)). lia.
Qed.

(** One failed probe in front of an outcome of the rest of the loop. *)
Lemma waitOutcome_after_failure (timeout start : Z) (w w2 : World) (b : bool)
  (w' : World) :
  ~ probeSucceeds (probesIssued w) ->
  now w - start < timeout ->
  now w2 = now w + Z.of_N (latency (probeReply (probesIssued w))) + 1000 ->
  probesIssued w2 = S (probesIssued w) ->
  sleeps w2 = sleeps w ++ [1000%Q] ->
  opsInvoked w2 = opsInvoked w ->
  checksIssued w2 = checksIssued w ->
  randomsDrawn w2 = randomsDrawn w ->
  isConnected w2 = isConnected w ->
  waitOutcome timeout start w2 b w' ->
  waitOutcome timeout start w b w'.
Proof.
  intros Hfail Hin Hnow Hk Hsl Hops Hchk Hrnd Hconn (n & Hprobes & Hs & Ho & Hc & Hr & Hb).
  exists (S n).
  assert (Hspan : forall i, now w + failedSpan (probesIssued w) (S i)
                            = now w2 + failedSpan (probesIssued w2) i).
  { intros i. cbn [failedSpan]. rewrite Hnow, Hk. lia. }
  assert (Hidx : forall i, (probesIssued w + S i)%nat = (probesIssued w2 + i)%nat).
  { intros i. rewrite Hk. lia. }
  split.
  { intros [|i] Hi.
    - rewrite Nat.add_0_r. cbn [failedSpan]. split; [exact Hfail | lia].
    - rewrite Hidx, Hspan. apply Hprobes. lia. }
  split.
  { rewrite Hs, Hsl. cbn [repeat]. rewrite <- app_assoc. reflexivity. }
  repeat split; try congruence.
  destruct b.
  - destruct Hb as (H1 & H2 & H3 & H4 & H5).
    rewrite Hidx, Hspan.
    split; [exact H1|]. split; [exact H2|].
    split; [rewrite H3, Hk; lia|]. split; [exact H4|exact H5].
  - destruct Hb as (H1 & H2 & H3 & H4).
    rewrite Hspan.
    split; [rewrite H1, Hk; lia|]. split; [congruence|].
    split; [exact H3|exact H4].
Qed.

(** A failed probe: the rest of the loop runs on less fuel. *)
Ltac failed_probe IH q Hreply :=
  match goal with
  | |- exists b w', waitLoop _ ?timeout ?start ?w2 = _ /\ _ =>
      let b := fresh "b" in
      let w' := fresh "w'" in
      let Hrun := fresh "Hrun" in
      let Hres := fresh "Hres" in
      destruct (IH timeout start w2) as (b & w' & Hrun & Hres);
      [ cbn; fold q; lia
      | lia
      | exists b, w'; split; [exact Hrun|];
        eapply waitOutcome_after_failure; [| | | | | | | | |exact Hres];
        try reflexivity; try assumption;
        unfold probeSucceeds; fold q; rewrite Hreply; discriminate ]
  end.

Lemma waitLoop_outcome (fuel : nat) :
  forall (timeout start : Z) (w : World),
    timeout - (now w - start) <= 1000 * (Z.of_nat fuel - 1) ->
    (1 <= fuel)%nat ->
    exists b w',
      waitLoop fuel timeout start w = Some (Returned b, w')
      /\ waitOutcome timeout start w b w'.
Proof.
  induction fuel as [|fuel IH]; intros timeout start w Hfuel Hpos; [lia|].
  rewrite waitLoop_step.
  destruct (Z.ltb_spec (now w - start) timeout) as [Hin|Hout].
  2:{ exists false, w. split; [reflexivity|].
      exists 0%nat. cbn [failedSpan repeat]. rewrite app_nil_r, Nat.add_0_r.
      repeat split; try lia. }
  cbv zeta.
  set (q := probeReply (probesIssued w)).
  assert (Hlat : 0 <= Z.of_N (latency q)) by lia.
  destruct (reply q) as [[e|]|err] eqn:Hreply.
  - failed_probe IH q Hreply.
  - exists true. eexists. split; [reflexivity|].
    exists 0%nat. cbn [failedSpan repeat]. rewrite app_nil_r, Nat.add_0_r.
    split; [intros i Hi; lia|].
    cbn. fold q. repeat split; try lia. exact Hreply.
  - failed_probe IH q Hreply.
Qed.

(** The fuel [waitForConnection] gives its loop covers the window. *)
Lemma waitFuel_enough (timeout elapsed : Z) :
  0 <= elapsed ->
  timeout - elapsed <= 1000 * (Z.of_nat (waitFuel timeout) - 1).
Proof.
  intros Helapsed. unfold waitFuel.
  destruct (Z.le_gt_cases 0 timeout) as [Hnn|Hneg].
  - pose proof (Z.div_pos timeout 1000 Hnn ltac:(lia)) as Hq.
    pose proof (Z.mod_pos_bound timeout 1000 ltac:(lia)) as Hm.
    pose proof (Z.div_mod timeout 1000 ltac:(lia)) as Hd.
    rewrite Nat2Z.inj_add, Z2Nat.id by assumption. lia.
  - lia.
Qed.


(** ** The latch *)

Lemma latchStep_same (w w' : World) :
  isConnected w' = isConnected w ->
  probesIssued w' = probesIssued w ->
  latchStep w w'.
Proof.
  intros Hc Hp. unfold latchStep. rewrite Hc, Hp.
  split; [lia|]. split; [intros H; exact H|]. intros H; left; exact H.
Qed.

Lemma latchStep_refl (w : World) : latchStep w w.
Proof. apply latchStep_same; reflexivity. Qed.

Lemma latchStep_trans (w1 w2 w3 : World) :
  latchStep w1 w2 -> latchStep w2 w3 -> latchStep w1 w3.
Proof.
  intros (Hp12 & Hk12 & Hs12) (Hp23 & Hk23 & Hs23).
  split; [lia|]. split; [intros H; apply Hk23, Hk12, H|].
  intros H3. destruct (Hs23 H3) as [H2|(k & Hk & Hok)].
  - destruct (Hs12 H2) as [H1|(k & Hk & Hok)]; [left; exact H1|].
    right. exists k. split; [lia|exact Hok].
  - right. exists k. split; [lia|exact Hok].
Qed.

Lemma waitOutcome_latchStep (timeout start : Z) (w : World) (b : bool)
  (w' : World) :
  waitOutcome timeout start w b w' -> latchStep w w'.
Proof.
  intros (n & _ & _ & _ & _ & _ & Hb). destruct b.
  - destruct Hb as (Hok & _ & Hp & Hc & _).
    split; [lia|]. split; [intros _; exact Hc|].
    intros _. right. exists (probesIssued w + n)%nat. split; [lia|exact Hok].
  - destruct Hb as (Hp & Hc & _). unfold latchStep. rewrite Hc.
    split; [lia|]. split; [intros H; exact H|]. intros H; left; exact H.
Qed.

(** The guard in front of the retry loop always completes; it does not
    invoke the operation, and does nothing at all once the flag is set. *)
Lemma ensureConnection_runs (w : World) :
  exists w0,
    ensureConnection w = Some (Returned tt, w0)
    /\ opsInvoked w0 = opsInvoked w
    /\ randomsDrawn w0 = randomsDrawn w
    /\ (isConnected w = true -> w0 = w)
    /\ latchStep w w0.
Proof.
  unfold ensureConnection, bind, getWorld.
  destruct (isConnected w) eqn:Hconn; cbn [negb].
  - exists w. split; [reflexivity|]. split; [reflexivity|].
    split; [reflexivity|]. split; [reflexivity|apply latchStep_refl].
  - unfold waitForConnection, bind. cbn [dateNow].
    destruct (waitLoop_outcome (waitFuel 5000) 5000 (now w) w)
      as (b & w0 & Hrun & Hout);
      [apply waitFuel_enough; lia | unfold waitFuel; lia |].
    rewrite Hrun. exists w0. split; [reflexivity|].
    pose proof (waitOutcome_latchStep _ _ _ _ _ Hout) as Hlatch.
    destruct Hout as (n & _ & _ & Hops & _ & Hrnd & _).
    split; [exact Hops|]. split; [exact Hrnd|].
    split; [discriminate|exact Hlatch].
Qed.

(** ** The retry loop *)

Section RetryFacts.

Context {T : Type}.
Variable truthy : T -> bool.
Variable operation : nat -> Settlement T.
Variables maxRetries baseDelay : Z.

Lemma retryLoop_truthy (attempt : Z) (rest : list Z) (w : World) result ms :
  raceOutcome (operation (opsInvoked w)) = (Returned result, ms) ->
  truthy result = true ->
  retryLoop truthy operation maxRetries baseDelay (attempt :: rest) w
  = Some (Returned result, attempted ms w).
Proof.
  intros Hrace Htruthy.
  cbn [retryLoop]. unfold bind, tryCatch, raceWithTimeout.
  rewrite Hrace, Htruthy. reflexivity.
Qed.

Lemma retryLoop_falsy (attempt : Z) (rest : list Z) (w : World) result ms :
  raceOutcome (operation (opsInvoked w)) = (Returned result, ms) ->
  truthy result = false ->
  retryLoop truthy operation maxRetries baseDelay (attempt :: rest) w
  = Some (Threw (ErrorObj (js "Operation returned no data")), attempted ms w).
Proof.
  intros Hrace Hfalsy.
  cbn [retryLoop]. unfold bind, tryCatch, raceWithTimeout.
  rewrite Hrace, Hfalsy. reflexivity.
Qed.

Lemma retryLoop_fatal (attempt : Z) (rest : list Z) (w : World) err ms :
  raceOutcome (operation (opsInvoked w)) = (Threw err, ms) ->
  isRetryableError err = false ->
  retryLoop truthy operation maxRetries baseDelay (attempt :: rest) w
  = Some (Threw err, attempted ms w).
Proof.
  intros Hrace Hfatal.
  cbn [retryLoop]. unfold bind, tryCatch, raceWithTimeout.
  rewrite Hrace, Hfatal. reflexivity.
Qed.

Lemma retryLoop_retryable_last (rest : list Z) (w : World) err ms :
  raceOutcome (operation (opsInvoked w)) = (Threw err, ms) ->
  isRetryableError err = true ->
  exists w',
    retryLoop truthy operation maxRetries baseDelay (maxRetries :: rest) w
    = Some (Threw err, w')
    /\ opsInvoked w' = S (opsInvoked w)
    /\ sleeps w' = sleeps w
    /\ isConnected w' = isConnected w
    /\ probesIssued w' = probesIssued w.
Proof.
  intros Hrace Hretry.
  cbn [retryLoop]. unfold bind, tryCatch, raceWithTimeout.
  rewrite Hrace, Hretry. cbn. rewrite Z.eqb_refl.
  eexists. split; [reflexivity|]. cbn. repeat split.
Qed.

Lemma retryLoop_retryable_backoff (attempt : Z) (rest : list Z) (w : World)
  err ms :
  raceOutcome (operation (opsInvoked w)) = (Threw err, ms) ->
  isRetryableError err = true ->
  attempt <> maxRetries ->
  exists w2,
    retryLoop truthy operation maxRetries baseDelay (attempt :: rest) w
    = retryLoop truthy operation maxRetries baseDelay rest w2
    /\ opsInvoked w2 = S (opsInvoked w)
    /\ sleeps w2
       = sleeps w ++ [backoffDelay baseDelay attempt (random (randomsDrawn w))]
    /\ isConnected w2 = isConnected w
    /\ probesIssued w2 = probesIssued w.
Proof.
  intros Hrace Hretry Hnotlast.
  cbn [retryLoop]. unfold bind, tryCatch, raceWithTimeout.
  rewrite Hrace, Hretry. cbn.
  destruct (Z.eqb_spec attempt maxRetries) as [Heq|_]; [contradiction|].
  eexists. split; [reflexivity|]. cbn. repeat split.
Qed.

(** Without an attempt to make, the operation is not invoked and the
    generic error is thrown. *)
Lemma withRetry_without_attempts (w : World) :
  maxRetries <= 0 ->
  exists w0,
    ensureConnection w = Some (Returned tt, w0)
    /\ withRetry truthy operation maxRetries baseDelay w
       = Some (Threw (ErrorObj (js "Operation failed after multiple retries")),
               w0)
    /\ opsInvoked w0 = opsInvoked w.
Proof.
  intros Hmax.
  destruct (ensureConnection_runs w) as (w0 & Hguard & Hops0 & _ & _ & _).
  exists w0. split; [exact Hguard|]. split; [|exact Hops0].
  unfold withRetry, bind. rewrite Hguard. unfold attemptsUpTo.
  replace (Z.to_nat maxRetries) with 0%nat by lia. reflexivity.
Qed.

(** With every attempt failing on a retryable error, the loop over the
    attempts [a, a+1, ..., maxRetries] invokes the operation once per
    attempt, backs off after each but the last, and throws what the last
    one failed on. *)
Lemma retryLoop_exhausts (n : nat) :
  forall (a : nat) (w : World),
    (forall k, exists err ms,
        raceOutcome (operation k) = (Threw err, ms)
        /\ isRetryableError err = true) ->
    (1 <= n)%nat ->
    Z.of_nat (a + n - 1) = maxRetries ->
    exists err ms w',
      retryLoop truthy operation maxRetries baseDelay
        (map Z.of_nat (seq a n)) w
      = Some (Threw err, w')
      /\ opsInvoked w' = (opsInvoked w + n)%nat
      /\ raceOutcome (operation (opsInvoked w + n - 1)) = (Threw err, ms)
      /\ isRetryableError err = true
      /\ length (sleeps w') = (length (sleeps w) + n - 1)%nat
      /\ isConnected w' = isConnected w
      /\ probesIssued w' = probesIssued w.
Proof.
  induction n as [|n IH]; intros a w Hall Hpos Hlast; [lia|].
  destruct (Hall (opsInvoked w)) as (err & ms & Hrace & Hretry).
  destruct n as [|n].
  - cbn [seq map].
    replace (Z.of_nat a) with maxRetries by lia.
    destruct (retryLoop_retryable_last [] w err ms Hrace Hretry)
      as (w' & Hrun & Hops & Hsl & Hconn & Hprobes).
    exists err, ms, w'. split; [exact Hrun|].
    split; [lia|]. split; [rewrite <- Hrace; f_equal; f_equal; lia|].
    split; [exact Hretry|]. split; [rewrite Hsl; lia|]. split; assumption.
  - change (map Z.of_nat (seq a (S (S n))))
      with (Z.of_nat a :: map Z.of_nat (seq (S a) (S n))).
    destruct (retryLoop_retryable_backoff (Z.of_nat a)
                (map Z.of_nat (seq (S a) (S n))) w err ms Hrace Hretry)
      as (w2 & Hstep & Hops & Hsl & Hconn & Hprobes); [lia|].
    destruct (IH (S a) w2 Hall) as (err' & ms' & w' & Hrun & Hops' & Hrace'
                                    & Hretry' & Hsl' & Hconn' & Hprobes');
      [lia | lia |].
    exists err', ms', w'. split; [rewrite Hstep; exact Hrun|].
    split; [lia|].
    split; [rewrite <- Hrace'; f_equal; f_equal; lia|].
    split; [exact Hretry'|].
    split; [rewrite Hsl', Hsl, length_app; cbn [length]; lia|].
    split; congruence.
Qed.

(** What the race settles with when the operation rejects. *)
Lemma raceOutcome_rejects (err : Thrown) (ms : N) :
  raceOutcome (T := T) (Rejects err ms)
  = if Z.of_N ms <? 10000 then (Threw err, Z.of_N ms)
    else (Threw (ErrorObj (js "Request timeout")), 10000).
Proof. reflexivity. Qed.

(** C1. An operation that throws, on every invocation, an Error whose
    message contains "Failed to fetch" is invoked exactly [maxRetries]
    times by [withRetry], with a backoff after each attempt but the last;
    [withRetry] then throws the retryable error the final attempt failed
    on: the operation's own error when it came before the 10 second timer
    (else the timer's). *)
Theorem withRetry_failed_to_fetch_exhausts (w : World) :
  (forall k, exists message ms,
      operation k = Rejects (ErrorObj message) ms
      /\ includes message (js "Failed to fetch") = true) ->
  1 <= maxRetries ->
  exists err ms w0 w',
    ensureConnection w = Some (Returned tt, w0)
    /\ withRetry truthy operation maxRetries baseDelay w = Some (Threw err, w')
    /\ opsInvoked w' = (opsInvoked w + Z.to_nat maxRetries)%nat
    /\ raceOutcome (operation (opsInvoked w + Z.to_nat maxRetries - 1))
       = (Threw err, ms)
    /\ (forall message ms',
          operation (opsInvoked w + Z.to_nat maxRetries - 1)
          = Rejects (ErrorObj message) ms' ->
          Z.of_N ms' < 10000 -> err = ErrorObj message)
    /\ isRetryableError err = true
    /\ length (sleeps w')
       = (length (sleeps w0) + Z.to_nat maxRetries - 1)%nat.
Proof.
  intros Hfetch Hmax.
  destruct (ensureConnection_runs w) as (w0 & Hguard & Hops0 & _ & _ & _).
  assert (Hall : forall k, exists err ms,
             raceOutcome (operation k) = (Threw err, ms)
             /\ isRetryableError err = true).
  { intros k. destruct (Hfetch k) as (message & ms & Hop & Hincl).
    rewrite Hop, raceOutcome_rejects.
    destruct (Z.of_N ms <? 10000); eexists _, _; (split; [reflexivity|]).
    - cbn [isRetryableError]. rewrite Hincl. reflexivity.
    - reflexivity. }
  destruct (retryLoop_exhausts (Z.to_nat maxRetries) 1 w0 Hall)
    as (err & ms & w' & Hrun & Hops & Hrace & Hretry & Hsl & _); [lia | lia |].
  exists err, ms, w0, w'.
  split; [exact Hguard|].
  split; [unfold withRetry, bind; rewrite Hguard; exact Hrun|].
  split; [lia|]. rewrite <- Hops0.
  split; [exact Hrace|].
  split.
  { intros message ms' Hop Hfast. rewrite Hop, raceOutcome_rejects in Hrace.
    destruct (Z.ltb_spec (Z.of_N ms') 10000); [congruence|lia]. }
  split; [exact Hretry|exact Hsl].
Qed.

(** The amended C2. An operation that resolves with a falsy result is not
    retried: [withRetry] invokes it once and throws "Operation returned no
    data" at once, without backing off; the error is not a retryable one. *)
Theorem withRetry_falsy_result_throws (w : World) (result : T) (ms : N) :
  operation (opsInvoked w) = Resolves result ms ->
  Z.of_N ms < 10000 ->
  truthy result = false ->
  1 <= maxRetries ->
  exists w0,
    ensureConnection w = Some (Returned tt, w0)
    /\ withRetry truthy operation maxRetries baseDelay w
       = Some (Threw (ErrorObj (js "Operation returned no data")),
               attempted (Z.of_N ms) w0)
    /\ opsInvoked (attempted (Z.of_N ms) w0) = S (opsInvoked w)
    /\ sleeps (attempted (Z.of_N ms) w0) = sleeps w0
    /\ isRetryableError (ErrorObj (js "Operation returned no data")) = false.
Proof.
  intros Hop Hfast Hfalsy Hmax.
  destruct (ensureConnection_runs w) as (w0 & Hguard & Hops0 & _ & _ & _).
  exists w0. split; [exact Hguard|].
  assert (Hrace : raceOutcome (operation (opsInvoked w0))
                  = (Returned result, Z.of_N ms)).
  { rewrite Hops0, Hop. cbn [raceOutcome].
    destruct (Z.ltb_spec (Z.of_N ms) 10000); [reflexivity|lia]. }
  split.
  { unfold withRetry, bind. rewrite Hguard. unfold attemptsUpTo.
    destruct (Z.to_nat maxRetries) as [|n] eqn:Hn; [lia|].
    cbn [seq map]. apply (retryLoop_falsy _ _ _ _ _ Hrace Hfalsy). }
  split; [cbn; congruence|]. split; reflexivity.
Qed.

(** C3. An operation that throws an Error whose message matches none of
    the five retryable signatures is invoked exactly once: [withRetry]
    throws that error at once, without backing off, whatever attempts
    remain. *)
Theorem withRetry_non_retryable_throws_at_once (w : World)
  (message : jsstring) (ms : N) :
  operation (opsInvoked w) = Rejects (ErrorObj message) ms ->
  Z.of_N ms < 10000 ->
  isRetryableError (ErrorObj message) = false ->
  1 <= maxRetries ->
  exists w0,
    ensureConnection w = Some (Returned tt, w0)
    /\ withRetry truthy operation maxRetries baseDelay w
       = Some (Threw (ErrorObj message), attempted (Z.of_N ms) w0)
    /\ opsInvoked (attempted (Z.of_N ms) w0) = S (opsInvoked w)
    /\ sleeps (attempted (Z.of_N ms) w0) = sleeps w0.
Proof.
  intros Hop Hfast Hfatal Hmax.
  destruct (ensureConnection_runs w) as (w0 & Hguard & Hops0 & _ & _ & _).
  exists w0. split; [exact Hguard|].
  assert (Hrace : raceOutcome (operation (opsInvoked w0))
                  = (Threw (ErrorObj message), Z.of_N ms)).
  { rewrite Hops0, Hop, raceOutcome_rejects.
    destruct (Z.ltb_spec (Z.of_N ms) 10000); [reflexivity|lia]. }
  split.
  { unfold withRetry, bind. rewrite Hguard. unfold attemptsUpTo.
    destruct (Z.to_nat maxRetries) as [|n] eqn:Hn; [lia|].
    cbn [seq map]. apply (retryLoop_fatal _ _ _ _ _ Hrace Hfatal). }
  split; [cbn; congruence|reflexivity].
Qed.

End RetryFacts.

(** ** Every computation of the modules is a step of the latch *)

Lemma runsLatched_ret {A} (a : A) : runsLatched (ret a).
Proof. intros w. exists (Returned a), w. split; [reflexivity|apply latchStep_refl]. Qed.

Lemma runsLatched_throw {A} (e : Thrown) : runsLatched (throw (A := A) e).
Proof. intros w. exists (Threw e), w. split; [reflexivity|apply latchStep_refl]. Qed.

Lemma runsLatched_liftCompletion {A} (c : Completion A) :
  runsLatched (liftCompletion c).
Proof. intros w. exists c, w. split; [reflexivity|apply latchStep_refl]. Qed.

Lemma runsLatched_bind {A B} (m : M A) (k : A -> M B) :
  runsLatched m -> (forall a, runsLatched (k a)) -> runsLatched (bind m k).
Proof.
  intros Hm Hk w. unfold bind.
  destruct (Hm w) as ([a|e] & w1 & -> & H1).
  - destruct (Hk a w1) as (c & w2 & -> & H2).
    exists c, w2. split; [reflexivity|eapply latchStep_trans; eassumption].
  - exists (Threw e), w1. split; [reflexivity|exact H1].
Qed.

Lemma runsLatched_tryCatch {A} (body : M A) (handler : Thrown -> M A) :
  runsLatched body -> (forall e, runsLatched (handler e)) ->
  runsLatched (tryCatch body handler).
Proof.
  intros Hm Hk w. unfold tryCatch.
  destruct (Hm w) as ([a|e] & w1 & -> & H1).
  - exists (Returned a), w1. split; [reflexivity|exact H1].
  - destruct (Hk e w1) as (c & w2 & -> & H2).
    exists c, w2. split; [reflexivity|eapply latchStep_trans; eassumption].
Qed.

Lemma runsLatched_getWorld : runsLatched getWorld.
Proof. intros w. exists (Returned w), w. split; [reflexivity|apply latchStep_refl]. Qed.

Lemma runsLatched_emit (s : Stream) (args : list LogArg) :
  runsLatched (emit s args).
Proof.
  intros w. eexists _, _. split; [reflexivity|].
  apply latchStep_same; reflexivity.
Qed.

Lemma runsLatched_sleep (ms : Q) : runsLatched (sleep ms).
Proof.
  intros w. eexists _, _. split; [reflexivity|].
  apply latchStep_same; reflexivity.
Qed.

Lemma runsLatched_mathRandom : runsLatched (mathRandom random).
Proof.
  intros w. eexists _, _. split; [reflexivity|].
  apply latchStep_same; reflexivity.
Qed.

Lemma runsLatched_querySpaces : runsLatched querySpaces.
Proof.
  intros w. unfold querySpaces.
  destruct (reply (spacesReply (checksIssued w))); cbv zeta;
    eexists _, _; (split; [reflexivity|]); apply latchStep_same; reflexivity.
Qed.

Lemma runsLatched_raceWithTimeout {T} (operation : nat -> Settlement T) :
  runsLatched (raceWithTimeout operation).
Proof.
  intros w. unfold raceWithTimeout.
  destruct (raceOutcome (operation (opsInvoked w))) as [c ms].
  eexists _, _. split; [reflexivity|]. apply latchStep_same; reflexivity.
Qed.

Create HintDb latch.
#[local] Hint Resolve runsLatched_ret runsLatched_throw
  runsLatched_liftCompletion runsLatched_getWorld runsLatched_emit
  runsLatched_sleep runsLatched_mathRandom runsLatched_querySpaces
  runsLatched_raceWithTimeout : latch.

(** Splits a computation along its binds and handlers. *)
Ltac latched :=
  repeat first
    [ progress (auto with latch)
    | apply runsLatched_bind
    | apply runsLatched_tryCatch
    | match goal with
      | |- forall _, _ => intro
      | |- runsLatched (if ?b then _ else _) => destruct b
      | |- runsLatched (match ?x with _ => _ end) => destruct x
      end ].

Lemma runsLatched_readEnvVariable (systemVar viteVar : jsstring)
  (isRequired : bool) :
  runsLatched (readEnvVariable systemVar viteVar isRequired).
Proof. unfold readEnvVariable. latched. Qed.

Lemma runsLatched_waitForConnection (timeout : Z) :
  runsLatched (waitForConnection timeout).
Proof.
  intros w. unfold waitForConnection, bind. cbn [dateNow].
  destruct (waitLoop_outcome (waitFuel timeout) timeout (now w) w)
    as (b & w' & Hrun & Hout);
    [apply waitFuel_enough; lia | unfold waitFuel; lia |].
  exists (Returned b), w'. split; [exact Hrun|].
  eapply waitOutcome_latchStep; exact Hout.
Qed.

Lemma runsLatched_checkConnection : runsLatched checkConnection.
Proof. unfold checkConnection. latched. Qed.

Lemma runsLatched_ensureConnection : runsLatched ensureConnection.
Proof.
  intros w. destruct (ensureConnection_runs w) as (w0 & Hrun & _ & _ & _ & H).
  exists (Returned tt), w0. split; assumption.
Qed.

#[local] Hint Resolve runsLatched_waitForConnection
  runsLatched_ensureConnection : latch.

Lemma runsLatched_retryLoop {T} (truthy : T -> bool)
  (operation : nat -> Settlement T) (maxRetries baseDelay : Z)
  (attempts : list Z) :
  runsLatched (retryLoop truthy operation maxRetries baseDelay attempts).
Proof.
  induction attempts as [|attempt rest IH]; cbn [retryLoop]; latched.
Qed.

Lemma runsLatched_withRetry {T} (truthy : T -> bool)
  (operation : nat -> Settlement T) (maxRetries baseDelay : Z) :
  runsLatched (withRetry truthy operation maxRetries baseDelay).
Proof.
  unfold withRetry. apply runsLatched_bind; [auto with latch|].
  intros _. apply runsLatched_retryLoop.
Qed.

#[local] Hint Resolve runsLatched_withRetry : latch.

Lemma runsLatched_uploadFile (userId modelId filename : jsstring)
  (content : Content) :
  runsLatched (uploadFile userId modelId filename content).
Proof. unfold uploadFile. latched. Qed.

Lemma runsLatched_downloadFile (userId modelId filename : jsstring) :
  runsLatched (downloadFile userId modelId filename).
Proof. unfold downloadFile. latched. Qed.

Lemma runsLatched_listFiles (userId modelId : jsstring) :
  runsLatched (listFiles userId modelId).
Proof. unfold listFiles. latched. Qed.

Lemma runsLatched_deleteFile (userId modelId filename : jsstring) :
  runsLatched (deleteFile userId modelId filename).
Proof. unfold deleteFile. latched. Qed.

Lemma worldAfter_latched {A} (m : M A) (w : World) :
  runsLatched m -> exists w', worldAfter m w = Some w' /\ latchStep w w'.
Proof.
  intros Hm. unfold worldAfter. destruct (Hm w) as (c & w' & -> & H).
  exists w'. split; [reflexivity|exact H].
Qed.

Lemma runCall_latched (c : ModuleCall) (w : World) :
  exists w', runCall c w = Some w' /\ latchStep w w'.
Proof.
  destruct c; cbn [runCall]; apply worldAfter_latched.
  - apply runsLatched_readEnvVariable.
  - apply runsLatched_waitForConnection.
  - apply runsLatched_withRetry.
  - apply runsLatched_checkConnection.
  - apply runsLatched_uploadFile.
  - apply runsLatched_downloadFile.
  - apply runsLatched_listFiles.
  - apply runsLatched_deleteFile.
Qed.

Lemma runCalls_latched (cs : list ModuleCall) :
  forall w, exists w', runCalls cs w = Some w' /\ latchStep w w'.
Proof.
  induction cs as [|c cs IH]; intros w; cbn [runCalls].
  - exists w. split; [reflexivity|apply latchStep_refl].
  - destruct (runCall_latched c w) as (w1 & -> & H1).
    destruct (IH w1) as (w' & Hrun & H2).
    exists w'. split; [exact Hrun|eapply latchStep_trans; eassumption].
Qed.

(** C7. Whatever calls are made on the modules, in whatever order, they
    complete and the connection flag only latches: once true it is still
    true afterwards, and it is true afterwards, not having been before,
    only when a readiness probe issued by these calls succeeded.  No
    operation resets it. *)
Theorem isConnected_only_latches (cs : list ModuleCall) (w : World) :
  exists w',
    runCalls cs w = Some w'
    /\ (isConnected w = true -> isConnected w' = true)
    /\ (isConnected w = false -> isConnected w' = true ->
        exists k,
          (probesIssued w <= k < probesIssued w')%nat /\ probeSucceeds k).
Proof.
  destruct (runCalls_latched cs w) as (w' & Hrun & _ & Hkeep & Hset).
  exists w'. split; [exact Hrun|]. split; [exact Hkeep|].
  intros Hoff Hon. destruct (Hset Hon) as [Hwas|Hprobe]; [congruence|exact Hprobe].
Qed.

(** C6. An upload whose path is valid and whose blob is larger than
    500 * 1024 * 1024 bytes throws the size-limit error before anything
    is sent: the world, with its counts of storage calls and of probes, is
    as it was. *)
Theorem uploadFile_oversize_fails_before_any_call
  (userId modelId filename : jsstring) (content : Content) (w : World)
  (storagePath : jsstring) :
  buildStoragePath userId modelId filename = Returned storagePath ->
  500 * 1024 * 1024 < Z.of_N (size (toBlob content)) ->
  uploadFile userId modelId filename content w
  = Some (Threw (ErrorObj (js "File size exceeds maximum limit of 500MB")), w).
Proof.
  intros Hpath Hsize.
  unfold uploadFile, bind, liftCompletion. rewrite Hpath.
  destruct (Z.ltb_spec MAX_FILE_SIZE (Z.of_N (size (toBlob content))))
    as [_|Hle]; [reflexivity|].
  unfold MAX_FILE_SIZE in Hle. lia.
Qed.

(** ** More on the readiness loop *)

Lemma failedSpan_lower (k n : nat) : 1000 * Z.of_nat n <= failedSpan k n.
Proof.
  revert k. induction n as [|n IH]; intros k; cbn [failedSpan]; [lia|].
  specialize (IH (S k)). lia.
Qed.

(** X3. With a timeout that is not positive the loop is not entered: no probe
    is issued, nothing is slept, and false is returned. *)
Theorem waitForConnection_without_window (timeout : Z) (w : World) :
  timeout <= 0 ->
  waitForConnection timeout w = Some (Returned false, w).
Proof.
  intros Htimeout. unfold waitForConnection, bind. cbn [dateNow].
  unfold waitFuel. rewrite Nat.add_comm. cbn [Nat.add].
  rewrite waitLoop_step.
  destruct (Z.ltb_spec (now w - now w) timeout) as [H|_]; [lia|reflexivity].
Qed.

(** X4. The probes [waitForConnection] issues are at most one per started
    second of the window. *)
Theorem waitForConnection_probe_bound (timeout : Z) (w : World) :
  exists b w',
    waitForConnection timeout w = Some (Returned b, w')
    /\ (probesIssued w <= probesIssued w')%nat
    /\ Z.of_nat (probesIssued w' - probesIssued w)
       <= Z.max 0 ((timeout + 999) / 1000).
Proof.
  unfold waitForConnection, bind. cbn [dateNow].
  destruct (waitLoop_outcome (waitFuel timeout) timeout (now w) w)
    as (b & w' & Hrun & n & Hfailed & _ & _ & _ & _ & Hb);
    [apply waitFuel_enough; lia | unfold waitFuel; lia |].
  exists b, w'. split; [exact Hrun|].
  assert (Hceil : forall i : nat,
             1000 * Z.of_nat i < timeout ->
             Z.of_nat (S i) <= Z.max 0 ((timeout + 999) / 1000)).
  { intros i Hi.
    pose proof (Z.mod_pos_bound (timeout + 999) 1000 ltac:(lia)) as Hm.
    pose proof (Z.div_mod (timeout + 999) 1000 ltac:(lia)) as Hd. lia. }
  destruct b.
  - destruct Hb as (_ & Hin & Hp & _).
    pose proof (failedSpan_lower (probesIssued w) n) as Hspan.
    split; [lia|].
    replace (probesIssued w' - probesIssued w)%nat with (S n) by lia.
    apply Hceil. lia.
  - destruct Hb as (Hp & _). split; [lia|].
    replace (probesIssued w' - probesIssued w)%nat with n by lia.
    destruct n as [|n]; [lia|].
    destruct (Hfailed n ltac:(lia)) as [_ Hin].
    pose proof (failedSpan_lower (probesIssued w) n) as Hspan.
    apply Hceil. lia.
Qed.

(** ** [checkConnection] *)

(** X5. [checkConnection] never throws: it issues one query on [spaces] and
    returns whether that settled without error; it issues no readiness
    probe and leaves the connection flag as it was, also when the query
    succeeds. *)
Theorem checkConnection_reports_only (w : World) :
  exists b w',
    checkConnection w = Some (Returned b, w')
    /\ (b = true <-> reply (spacesReply (checksIssued w)) = QuerySettled None)
    /\ checksIssued w' = S (checksIssued w)
    /\ isConnected w' = isConnected w
    /\ probesIssued w' = probesIssued w
    /\ opsInvoked w' = opsInvoked w.
Proof.
  unfold checkConnection, tryCatch, bind, querySpaces.
  destruct (reply (spacesReply (checksIssued w))) as [[e|]|err] eqn:Hreply;
    cbv zeta; eexists _, _; (split; [reflexivity|]); cbn.
  - split; [split; discriminate|]. repeat split.
  - split; [split; reflexivity|]. repeat split.
  - split; [split; discriminate|]. repeat split.
Qed.

(** ** More on the retry loop *)

Section RetryMore.

Context {T : Type}.
Variable truthy : T -> bool.
Variable operation : nat -> Settlement T.
Variables maxRetries baseDelay : Z.

Lemma raceOutcome_time (s : Settlement T) :
  0 <= snd (raceOutcome s) <= 10000.
Proof.
  destruct s as [r ms|e ms|]; cbn [raceOutcome];
    try destruct (Z.ltb_spec (Z.of_N ms) 10000); cbn [snd]; lia.
Qed.

Lemma raceOutcome_returned (s : Settlement T) (r : T) (t : Z) :
  raceOutcome s = (Returned r, t) ->
  exists ms, s = Resolves r ms /\ Z.of_N ms < 10000 /\ t = Z.of_N ms.
Proof.
  destruct s as [r' ms|e ms|]; cbn [raceOutcome].
  - destruct (Z.ltb_spec (Z.of_N ms) 10000) as [Hfast|Hslow]; intros H;
      [|discriminate H].
    injection H as -> <-. exists ms. repeat split. exact Hfast.
  - destruct (Z.ltb_spec (Z.of_N ms) 10000) as [_|_]; intros H;
      discriminate H.
  - intros H. discriminate H.
Qed.

(** The last attempt, failing on a retryable error: the clock moved by the
    time of the race only. *)
Lemma retryLoop_last_clock (rest : list Z) (w : World) err ms :
  raceOutcome (operation (opsInvoked w)) = (Threw err, ms) ->
  isRetryableError err = true ->
  exists w',
    retryLoop truthy operation maxRetries baseDelay (maxRetries :: rest) w
    = Some (Threw err, w')
    /\ opsInvoked w' = S (opsInvoked w)
    /\ sleeps w' = sleeps w
    /\ isConnected w' = isConnected w
    /\ probesIssued w' = probesIssued w
    /\ now w' = now w + ms.
Proof.
  intros Hrace Hretry.
  cbn [retryLoop]. unfold bind, tryCatch, raceWithTimeout.
  rewrite Hrace, Hretry. cbn. rewrite Z.eqb_refl.
  eexists. split; [reflexivity|]. cbn. repeat split.
Qed.

(** An attempt that is not the last, failing on a retryable error: the
    clock moved by the time of the race and by the backoff. *)
Lemma retryLoop_backoff_clock (attempt : Z) (rest : list Z) (w : World)
  err ms :
  raceOutcome (operation (opsInvoked w)) = (Threw err, ms) ->
  isRetryableError err = true ->
  attempt <> maxRetries ->
  exists w2,
    retryLoop truthy operation maxRetries baseDelay (attempt :: rest) w
    = retryLoop truthy operation maxRetries baseDelay rest w2
    /\ opsInvoked w2 = S (opsInvoked w)
    /\ sleeps w2
       = sleeps w ++ [backoffDelay baseDelay attempt (random (randomsDrawn w))]
    /\ isConnected w2 = isConnected w
    /\ probesIssued w2 = probesIssued w
    /\ now w2
       = now w + ms
         + Z.max 0
             (Qfloor (backoffDelay baseDelay attempt (random (randomsDrawn w)))).
Proof.
  intros Hrace Hretry Hnotlast.
  cbn [retryLoop]. unfold bind, tryCatch, raceWithTimeout.
  rewrite Hrace, Hretry. cbn.
  destruct (Z.eqb_spec attempt maxRetries) as [Heq|_]; [contradiction|].
  eexists. split; [reflexivity|]. cbn. repeat split.
Qed.

(** Whatever the operation does, the loop completes, with at most one
    invocation per attempt; it issues no probe and leaves the flag alone;
    and what it returns is a truthy result the operation resolved with, in
    time, at the last invocation. *)
Lemma retryLoop_bounded (attempts : list Z) :
  forall w,
    exists c w',
      retryLoop truthy operation maxRetries baseDelay attempts w = Some (c, w')
      /\ (opsInvoked w <= opsInvoked w' <= opsInvoked w + length attempts)%nat
      /\ probesIssued w' = probesIssued w
      /\ isConnected w' = isConnected w
      /\ now w <= now w'
      /\ (forall r, c = Returned r ->
            truthy r = true
            /\ exists ms,
                 operation (opsInvoked w' - 1) = Resolves r ms
                 /\ Z.of_N ms < 10000).
Proof.
  induction attempts as [|attempt rest IH]; intros w.
  - eexists _, w. split; [reflexivity|]. cbn [length].
    split; [lia|]. split; [reflexivity|]. split; [reflexivity|].
    split; [lia|]. intros r Hr. discriminate Hr.
  - destruct (raceOutcome (operation (opsInvoked w))) as [c ms] eqn:Hrace.
    pose proof (raceOutcome_time (operation (opsInvoked w))) as Htime.
    rewrite Hrace in Htime. cbn [snd] in Htime. cbn [length].
    destruct c as [r|err].
    + destruct (truthy r) eqn:Htruthy.
      * rewrite (retryLoop_truthy _ _ _ _ _ _ _ _ _ Hrace Htruthy).
        eexists _, _. split; [reflexivity|]. cbn.
        split; [lia|]. split; [reflexivity|]. split; [reflexivity|].
        split; [lia|]. intros r' Hr'. injection Hr' as <-.
        split; [exact Htruthy|].
        apply raceOutcome_returned in Hrace as (ms' & Hop & Hfast & _).
        exists ms'. rewrite Nat.sub_0_r. split; assumption.
      * rewrite (retryLoop_falsy _ _ _ _ _ _ _ _ _ Hrace Htruthy).
        eexists _, _. split; [reflexivity|]. cbn.
        split; [lia|]. split; [reflexivity|]. split; [reflexivity|].
        split; [lia|]. intros r' Hr'. discriminate Hr'.
    + destruct (isRetryableError err) eqn:Hretry.
      * destruct (Z.eq_dec attempt maxRetries) as [->|Hnotlast].
        -- destruct (retryLoop_last_clock rest w err ms Hrace Hretry)
             as (w' & Hrun & Hops & _ & Hconn & Hprobes & Hnow).
           exists (Threw err), w'. split; [exact Hrun|].
           split; [lia|]. split; [exact Hprobes|]. split; [exact Hconn|].
           split; [lia|]. intros r' Hr'. discriminate Hr'.
        -- destruct (retryLoop_backoff_clock attempt rest w err ms Hrace
                       Hretry Hnotlast)
             as (w2 & Hstep & Hops & _ & Hconn & Hprobes & Hnow).
           destruct (IH w2) as (c & w' & Hrun & Hops' & Hprobes' & Hconn'
                                & Hnow' & Hret).
           exists c, w'. split; [rewrite Hstep; exact Hrun|].
           split; [lia|]. split; [congruence|]. split; [congruence|].
           split; [lia|exact Hret].
      * rewrite (retryLoop_fatal _ _ _ _ _ _ _ _ _ Hrace Hretry).
        eexists _, _. split; [reflexivity|]. cbn.
        split; [lia|]. split; [reflexivity|]. split; [reflexivity|].
        split; [lia|]. intros r' Hr'. discriminate Hr'.
Qed.

Lemma attemptsUpTo_length : length (attemptsUpTo maxRetries) = Z.to_nat maxRetries.
Proof. unfold attemptsUpTo. rewrite length_map, length_seq. reflexivity. Qed.

(** X6. [withRetry] always completes, whatever the operation does and whether
    or not the backend is reachable, and it invokes the operation at most
    [maxRetries] times (not at all when [maxRetries] is not positive). *)
Theorem withRetry_attempts_bounded (w : World) :
  exists c w',
    withRetry truthy operation maxRetries baseDelay w = Some (c, w')
    /\ (opsInvoked w <= opsInvoked w'
        <= opsInvoked w + Z.to_nat maxRetries)%nat.
Proof.
  destruct (ensureConnection_runs w) as (w0 & Hguard & Hops0 & _ & _ & _).
  destruct (retryLoop_bounded (attemptsUpTo maxRetries) w0)
    as (c & w' & Hrun & Hops & _).
  exists c, w'. split.
  - unfold withRetry, bind. rewrite Hguard. exact Hrun.
  - rewrite attemptsUpTo_length in Hops. lia.
Qed.

(** X7. What [withRetry] returns is never falsy: it is a truthy result the
    operation resolved with, before the timer, at the last invocation
    made. *)
Theorem withRetry_returns_truthy (w : World) :
  exists c w',
    withRetry truthy operation maxRetries baseDelay w = Some (c, w')
    /\ forall r,
         c = Returned r ->
         truthy r = true
         /\ exists ms,
              operation (opsInvoked w' - 1) = Resolves r ms
              /\ Z.of_N ms < 10000.
Proof.
  destruct (ensureConnection_runs w) as (w0 & Hguard & _).
  destruct (retryLoop_bounded (attemptsUpTo maxRetries) w0)
    as (c & w' & Hloop & _ & _ & _ & _ & Hret).
  exists c, w'. split; [|exact Hret].
  unfold withRetry, bind. rewrite Hguard. exact Hloop.
Qed.

(** X8. Once the flag is set, [withRetry] issues no readiness probe and the
    flag stays set, whatever the operation does. *)
Theorem withRetry_connected_skips_probe (w : World) :
  isConnected w = true ->
  exists c w',
    withRetry truthy operation maxRetries baseDelay w = Some (c, w')
    /\ probesIssued w' = probesIssued w
    /\ isConnected w' = true.
Proof.
  intros Hconn.
  destruct (ensureConnection_runs w) as (w0 & Hguard & _ & _ & Hsame & _).
  rewrite (Hsame Hconn) in Hguard.
  destruct (retryLoop_bounded (attemptsUpTo maxRetries) w)
    as (c & w' & Hrun & _ & Hprobes & Hflag & _).
  exists c, w'. split.
  - unfold withRetry, bind. rewrite Hguard. exact Hrun.
  - split; [exact Hprobes|congruence].
Qed.

(** After [k] attempts lost to retryable errors, an attempt that
    resolves with a truthy result ends the loop with that result. *)
Lemma retryLoop_recovers (k : nat) :
  forall (a n : nat) (w : World) (r : T) (ms : N),
    (k < n)%nat ->
    Z.of_nat (a + n - 1) = maxRetries ->
    (forall i, (i < k)%nat ->
       exists err t,
         raceOutcome (operation (opsInvoked w + i)) = (Threw err, t)
         /\ isRetryableError err = true) ->
    operation (opsInvoked w + k) = Resolves r ms ->
    Z.of_N ms < 10000 ->
    truthy r = true ->
    exists w',
      retryLoop truthy operation maxRetries baseDelay
        (map Z.of_nat (seq a n)) w
      = Some (Returned r, w')
      /\ opsInvoked w' = (opsInvoked w + k + 1)%nat
      /\ length (sleeps w') = (length (sleeps w) + k)%nat.
Proof.
  induction k as [|k IH]; intros a n w r ms Hk Hlast Hfail Hop Hfast Htruthy.
  - destruct n as [|n]; [lia|]. cbn [seq map].
    assert (Hrace : raceOutcome (operation (opsInvoked w))
                    = (Returned r, Z.of_N ms)).
    { rewrite Nat.add_0_r in Hop. rewrite Hop. cbn [raceOutcome].
      destruct (Z.ltb_spec (Z.of_N ms) 10000); [reflexivity|lia]. }
    rewrite (retryLoop_truthy _ _ _ _ _ _ _ _ _ Hrace Htruthy).
    eexists. split; [reflexivity|]. cbn. split; lia.
  - destruct n as [|n]; [lia|].
    change (map Z.of_nat (seq a (S n)))
      with (Z.of_nat a :: map Z.of_nat (seq (S a) n)).
    destruct (Hfail 0%nat ltac:(lia)) as (err & t & Hrace & Hretry).
    rewrite Nat.add_0_r in Hrace.
    destruct (retryLoop_retryable_backoff truthy operation maxRetries
                baseDelay (Z.of_nat a) (map Z.of_nat (seq (S a) n)) w err t
                Hrace Hretry)
      as (w2 & Hstep & Hops & Hsl & _); [lia|].
    destruct (IH (S a) n w2 r ms) as (w' & Hrun & Hops' & Hsl');
      try assumption; try lia.
    + intros i Hi. destruct (Hfail (S i) ltac:(lia)) as (e & t' & H1 & H2).
      exists e, t'. split; [|exact H2]. rewrite <- H1. do 2 f_equal. lia.
    + rewrite <- Hop. f_equal. lia.
    + exists w'. split; [rewrite Hstep; exact Hrun|].
      split; [lia|]. rewrite Hsl', Hsl, length_app. cbn [length]. lia.
Qed.

(** X9. An operation that fails [k] times on retryable errors and then
    resolves with a truthy result, within the attempts allowed, is
    invoked [k + 1] times, with a backoff after each failure, and
    [withRetry] returns its result. *)
Theorem withRetry_recovers (w : World) (k : nat) (r : T) (ms : N) :
  Z.of_nat k < maxRetries ->
  (forall i, (i < k)%nat ->
     exists err t,
       raceOutcome (operation (opsInvoked w + i)) = (Threw err, t)
       /\ isRetryableError err = true) ->
  operation (opsInvoked w + k) = Resolves r ms ->
  Z.of_N ms < 10000 ->
  truthy r = true ->
  exists w0 w',
    ensureConnection w = Some (Returned tt, w0)
    /\ withRetry truthy operation maxRetries baseDelay w
       = Some (Returned r, w')
    /\ opsInvoked w' = (opsInvoked w + k + 1)%nat
    /\ length (sleeps w') = (length (sleeps w0) + k)%nat.
Proof.
  intros Hk Hfail Hop Hfast Htruthy.
  destruct (ensureConnection_runs w) as (w0 & Hguard & Hops0 & _ & _ & _).
  rewrite <- Hops0 in Hop.
  destruct (retryLoop_recovers k 1 (Z.to_nat maxRetries) w0 r ms)
    as (w' & Hrun & Hops & Hsl); try assumption; try lia.
  { intros i Hi. rewrite Hops0. apply Hfail, Hi. }
  exists w0, w'. split; [exact Hguard|].
  split; [unfold withRetry, bind; rewrite Hguard; exact Hrun|].
  split; [lia|exact Hsl].
Qed.

(** With an operation that never settles, every attempt is ended by the
    timer after 10 seconds. *)
Lemma retryLoop_pending (n : nat) :
  forall (a : nat) (w : World),
    (forall k, operation k = Pending) ->
    (1 <= n)%nat ->
    Z.of_nat (a + n - 1) = maxRetries ->
    exists w',
      retryLoop truthy operation maxRetries baseDelay
        (map Z.of_nat (seq a n)) w
      = Some (Threw (ErrorObj (js "Request timeout")), w')
      /\ opsInvoked w' = (opsInvoked w + n)%nat
      /\ now w + 10000 * Z.of_nat n <= now w'.
Proof.
  induction n as [|n IH]; intros a w Hpending Hpos Hlast; [lia|].
  assert (Hrace : raceOutcome (operation (opsInvoked w))
                  = (Threw (ErrorObj (js "Request timeout")), 10000)).
  { rewrite Hpending. reflexivity. }
  assert (Hretry : isRetryableError (ErrorObj (js "Request timeout")) = true)
    by reflexivity.
  destruct n as [|n].
  - cbn [seq map]. replace (Z.of_nat a) with maxRetries by lia.
    destruct (retryLoop_last_clock [] w _ _ Hrace Hretry)
      as (w' & Hrun & Hops & _ & _ & _ & Hnow).
    exists w'. split; [exact Hrun|]. split; lia.
  - change (map Z.of_nat (seq a (S (S n))))
      with (Z.of_nat a :: map Z.of_nat (seq (S a) (S n))).
    destruct (retryLoop_backoff_clock (Z.of_nat a)
                (map Z.of_nat (seq (S a) (S n))) w _ _ Hrace Hretry)
      as (w2 & Hstep & Hops & _ & _ & _ & Hnow); [lia|].
    destruct (IH (S a) w2 Hpending) as (w' & Hrun & Hops' & Hnow');
      [lia | lia |].
    exists w'. split; [rewrite Hstep; exact Hrun|]. split; lia.
Qed.

(** X10. An operation that never settles is given up after [maxRetries]
    invocations, each ended by the 10 second timer: [withRetry] throws
    "Request timeout", and at least [maxRetries] times 10 seconds have
    passed since the retry loop was entered. *)
Theorem withRetry_times_out (w : World) :
  (forall k, operation k = Pending) ->
  1 <= maxRetries ->
  exists w0 w',
    ensureConnection w = Some (Returned tt, w0)
    /\ withRetry truthy operation maxRetries baseDelay w
       = Some (Threw (ErrorObj (js "Request timeout")), w')
    /\ opsInvoked w' = (opsInvoked w + Z.to_nat maxRetries)%nat
    /\ now w0 + 10000 * maxRetries <= now w'.
Proof.
  intros Hpending Hmax.
  destruct (ensureConnection_runs w) as (w0 & Hguard & Hops0 & _ & _ & _).
  destruct (retryLoop_pending (Z.to_nat maxRetries) 1 w0 Hpending)
    as (w' & Hrun & Hops & Hnow); [lia | lia |].
  exists w0, w'. split; [exact Hguard|].
  split; [unfold withRetry, bind; rewrite Hguard; exact Hrun|].
  split; lia.
Qed.

End RetryMore.

(** ** The backoffs of a run *)

Lemma backoffDelay_capped (baseDelay attempt : Z) (rnd : Q) :
  (backoffDelay baseDelay attempt rnd <= 15000)%Q.
Proof. unfold backoffDelay. apply Q.le_min_r. Qed.

Lemma retryLoop_backoffs {T} (truthy : T -> bool)
  (operation : nat -> Settlement T) (maxRetries baseDelay : Z) (n : nat) :
  forall (a : nat) (w : World),
    ((1 <= n)%nat -> Z.of_nat (a + n - 1) = maxRetries) ->
    exists c w' delays,
      retryLoop truthy operation maxRetries baseDelay
        (map Z.of_nat (seq a n)) w
      = Some (c, w')
      /\ sleeps w' = sleeps w ++ delays
      /\ (length delays <= n - 1)%nat
      /\ Forall (fun d => (d <= 15000)%Q) delays.
Proof.
  induction n as [|n IH]; intros a w Hlast.
  - eexists _, w, []. split; [reflexivity|]. rewrite app_nil_r.
    split; [reflexivity|]. split; [cbn; lia|constructor].
  - change (map Z.of_nat (seq a (S n)))
      with (Z.of_nat a :: map Z.of_nat (seq (S a) n)).
    specialize (Hlast ltac:(lia)).
    destruct (raceOutcome (operation (opsInvoked w))) as [c ms] eqn:Hrace.
    assert (Hdone : forall c' w1,
               sleeps w1 = sleeps w ->
               retryLoop truthy operation maxRetries baseDelay
                 (Z.of_nat a :: map Z.of_nat (seq (S a) n)) w
               = Some (c', w1) ->
               exists c w' delays,
                 retryLoop truthy operation maxRetries baseDelay
                   (Z.of_nat a :: map Z.of_nat (seq (S a) n)) w
                 = Some (c, w')
                 /\ sleeps w' = sleeps w ++ delays
                 /\ (length delays <= S n - 1)%nat
                 /\ Forall (fun d => (d <= 15000)%Q) delays).
    { intros c' w1 Hsl Hrun. exists c', w1, []. split; [exact Hrun|].
      rewrite app_nil_r. split; [exact Hsl|].
      split; [cbn; lia|constructor]. }
    destruct c as [r|err].
    + destruct (truthy r) eqn:Htruthy.
      * eapply Hdone; [|apply (retryLoop_truthy _ _ _ _ _ _ _ _ _ Hrace Htruthy)].
        reflexivity.
      * eapply Hdone; [|apply (retryLoop_falsy _ _ _ _ _ _ _ _ _ Hrace Htruthy)].
        reflexivity.
    + destruct (isRetryableError err) eqn:Hretry.
      * destruct (Z.eq_dec (Z.of_nat a) maxRetries) as [Heq|Hnotlast].
        -- rewrite Heq.
           destruct (retryLoop_retryable_last truthy operation maxRetries
                       baseDelay (map Z.of_nat (seq (S a) n)) w err ms
                       Hrace Hretry)
             as (w' & Hrun & _ & Hsl & _).
           rewrite Heq in Hdone. eapply Hdone; eassumption.
        -- destruct (retryLoop_retryable_backoff truthy operation maxRetries
                       baseDelay (Z.of_nat a) (map Z.of_nat (seq (S a) n)) w
                       err ms Hrace Hretry Hnotlast)
             as (w2 & Hstep & _ & Hsl & _).
           destruct (IH (S a) w2) as (c & w' & delays & Hrun & Hsl' & Hlen
                                      & Hcap); [lia|].
           exists c, w',
             (backoffDelay baseDelay (Z.of_nat a) (random (randomsDrawn w))
              :: delays).
           split; [rewrite Hstep; exact Hrun|].
           split; [rewrite Hsl', Hsl, <- app_assoc; reflexivity|].
           split; [cbn [length]; lia|].
           constructor; [apply backoffDelay_capped|exact Hcap].
      * eapply Hdone; [|apply (retryLoop_fatal _ _ _ _ _ _ _ _ _ Hrace Hretry)].
        reflexivity.
Qed.

(** X11. Whatever the operation does, [withRetry] backs off at most
    [maxRetries - 1] times, and never for more than 15 seconds at a
    time. *)
Theorem withRetry_backoffs_bounded {T} (truthy : T -> bool)
  (operation : nat -> Settlement T) (maxRetries baseDelay : Z) (w : World) :
  exists c w0 w' delays,
    ensureConnection w = Some (Returned tt, w0)
    /\ withRetry truthy operation maxRetries baseDelay w = Some (c, w')
    /\ sleeps w' = sleeps w0 ++ delays
    /\ (length delays <= Z.to_nat maxRetries - 1)%nat
    /\ Forall (fun d => (d <= 15000)%Q) delays.
Proof.
  destruct (ensureConnection_runs w) as (w0 & Hguard & _).
  destruct (retryLoop_backoffs truthy operation maxRetries baseDelay
              (Z.to_nat maxRetries) 1 w0)
    as (c & w' & delays & Hrun & Hsl & Hlen & Hcap).
  { intros Hpos. lia. }
  exists c, w0, w', delays. split; [exact Hguard|].
  split; [unfold withRetry, bind; rewrite Hguard; exact Hrun|].
  split; [exact Hsl|]. split; assumption.
Qed.

(** ** The storage functions *)

(** An operation that resolves, in time, with a truthy result at the
    first attempt: one invocation, and the result is returned. *)
Lemma withRetry_first_resolves {T} (truthy : T -> bool)
  (operation : nat -> Settlement T) (maxRetries baseDelay : Z) (w : World)
  (r : T) (ms : N) :
  operation (opsInvoked w) = Resolves r ms ->
  Z.of_N ms < 10000 ->
  truthy r = true ->
  1 <= maxRetries ->
  exists w0,
    ensureConnection w = Some (Returned tt, w0)
    /\ opsInvoked w0 = opsInvoked w
    /\ withRetry truthy operation maxRetries baseDelay w
       = Some (Returned r, attempted (Z.of_N ms) w0).
Proof.
  intros Hop Hfast Htruthy Hmax.
  destruct (ensureConnection_runs w) as (w0 & Hguard & Hops0 & _ & _ & _).
  exists w0. split; [exact Hguard|]. split; [exact Hops0|].
  assert (Hrace : raceOutcome (operation (opsInvoked w0))
                  = (Returned r, Z.of_N ms)).
  { rewrite Hops0, Hop. cbn [raceOutcome].
    destruct (Z.ltb_spec (Z.of_N ms) 10000); [reflexivity|lia]. }
  unfold withRetry, bind. rewrite Hguard. unfold attemptsUpTo.
  destruct (Z.to_nat maxRetries) as [|n] eqn:Hn; [lia|].
  cbn [seq map]. apply (retryLoop_truthy _ _ _ _ _ _ _ _ _ Hrace Htruthy).
Qed.

Lemma buildStoragePath_blank (userId modelId filename : jsstring) :
  trim userId = [] \/ trim modelId = [] \/ trim filename = [] ->
  buildStoragePath userId modelId filename
  = Threw (ErrorObj (js "Invalid path components")).
Proof.
  intros Hblank. unfold buildStoragePath.
  destruct (trim userId), (trim modelId), (trim filename); try reflexivity.
  destruct Hblank as [H|[H|H]]; discriminate H.
Qed.

(** X12. A blank component stops [uploadFile], [downloadFile] and
    [deleteFile] alike with the validation error, before anything is
    sent: the world is as it was. *)
Theorem storage_calls_validate_first (userId modelId filename : jsstring)
  (content : Content) (w : World) :
  trim userId = [] \/ trim modelId = [] \/ trim filename = [] ->
  uploadFile userId modelId filename content w
  = Some (Threw (ErrorObj (js "Invalid path components")), w)
  /\ downloadFile userId modelId filename w
     = Some (Threw (ErrorObj (js "Invalid path components")), w)
  /\ deleteFile userId modelId filename w
     = Some (Threw (ErrorObj (js "Invalid path components")), w).
Proof.
  intros Hblank.
  pose proof (buildStoragePath_blank _ _ _ Hblank) as Hthrow.
  unfold uploadFile, downloadFile, deleteFile, bind, liftCompletion.
  rewrite Hthrow. repeat split.
Qed.

(** X13. [uploadFile] sends one upload, with overwrite allowed, of the blob to
    the built path in the bucket [model-files]; when the call resolves in
    time, its reply decides: the stored path is returned, or the error of
    the reply is thrown, at once and without a retry, whatever its
    message. *)
Theorem uploadFile_reply_decides (userId modelId filename : jsstring)
  (content : Content) (w : World) (storagePath : jsstring)
  (r : Reply jsstring) (ms : N) :
  buildStoragePath userId modelId filename = Returned storagePath ->
  Z.of_N (size (toBlob content)) <= 500 * 1024 * 1024 ->
  storageUpload (opsInvoked w) (js "model-files")
    (Upload storagePath (toBlob content) true
       (match content with
        | Text _ => js "text/plain"
        | Binary b => type b
        end)
       (js "3600"))
  = Resolves r ms ->
  Z.of_N ms < 10000 ->
  exists w0,
    ensureConnection w = Some (Returned tt, w0)
    /\ uploadFile userId modelId filename content w
       = Some (match r with
               | ReplyData data => Returned data
               | ReplyError error => Threw error
               end,
               attempted (Z.of_N ms) w0)
    /\ opsInvoked (attempted (Z.of_N ms) w0) = S (opsInvoked w).
Proof.
  intros Hpath Hsize Hop Hfast.
  destruct (withRetry_first_resolves truthyReply
              (fun n =>
                 storageUpload n BUCKET_NAME
                   (Upload storagePath (toBlob content) true
                      (match content with
                       | Text _ => js "text/plain"
                       | Binary b => type b
                       end)
                      (js "3600")))
              5 1000 w r ms Hop Hfast eq_refl ltac:(lia))
    as (w0 & Hguard & Hops0 & Hrun).
  exists w0. split; [exact Hguard|]. split.
  - unfold uploadFile, bind, liftCompletion. rewrite Hpath.
    destruct (Z.ltb_spec MAX_FILE_SIZE (Z.of_N (size (toBlob content))))
      as [Hbig|_]; [unfold MAX_FILE_SIZE in Hbig; lia|].
    rewrite Hrun. destruct r; reflexivity.
  - cbn. congruence.
Qed.

(** X14. [downloadFile] and [deleteFile] address the one object at the built
    path; when the call resolves in time, its reply decides: the text (or
    nothing) is returned, or the error of the reply is thrown at once. *)
Theorem downloadFile_deleteFile_reply_decides
  (userId modelId filename : jsstring) (w : World) (storagePath : jsstring) :
  buildStoragePath userId modelId filename = Returned storagePath ->
  (forall (r : Reply jsstring) (ms : N),
      storageDownload (opsInvoked w) (js "model-files") (Download storagePath)
      = Resolves r ms ->
      Z.of_N ms < 10000 ->
      exists w',
        downloadFile userId modelId filename w
        = Some (match r with
                | ReplyData text => Returned text
                | ReplyError error => Threw error
                end, w')
        /\ opsInvoked w' = S (opsInvoked w))
  /\ (forall (r : Reply unit) (ms : N),
        storageRemove (opsInvoked w) (js "model-files") (Remove [storagePath])
        = Resolves r ms ->
        Z.of_N ms < 10000 ->
        exists w',
          deleteFile userId modelId filename w
          = Some (match r with
                  | ReplyData _ => Returned tt
                  | ReplyError error => Threw error
                  end, w')
          /\ opsInvoked w' = S (opsInvoked w)).
Proof.
  intros Hpath. split; intros r ms Hop Hfast.
  - destruct (withRetry_first_resolves truthyReply
                (fun n => storageDownload n BUCKET_NAME (Download storagePath))
                5 1000 w r ms Hop Hfast eq_refl ltac:(lia))
      as (w0 & _ & Hops0 & Hrun).
    exists (attempted (Z.of_N ms) w0). split.
    + unfold downloadFile, bind, liftCompletion. rewrite Hpath.
      rewrite Hrun. destruct r; reflexivity.
    + cbn. congruence.
  - destruct (withRetry_first_resolves truthyReply
                (fun n => storageRemove n BUCKET_NAME (Remove [storagePath]))
                5 1000 w r ms Hop Hfast eq_refl ltac:(lia))
      as (w0 & _ & Hops0 & Hrun).
    exists (attempted (Z.of_N ms) w0). split.
    + unfold deleteFile, bind, liftCompletion. rewrite Hpath.
      rewrite Hrun. destruct r; reflexivity.
    + cbn. congruence.
Qed.

Lemma startsWith_app (pat s : jsstring) : startsWith (pat ++ s) pat = true.
Proof.
  induction pat as [|p pat IH]; [destruct s; reflexivity|].
  cbn [app startsWith]. rewrite N.eqb_refl. exact IH.
Qed.

Lemma removeFirst_unfold (s pat : jsstring) :
  removeFirst s pat
  = if startsWith s pat then drop (length pat) s
    else match s with
         | [] => []
         | c :: s' => c :: removeFirst s' pat
         end.
Proof. destruct s; reflexivity. Qed.

Lemma removeFirst_prefix (pat s : jsstring) : removeFirst (pat ++ s) pat = s.
Proof.
  rewrite removeFirst_unfold, startsWith_app. apply drop_app_length.
Qed.

Lemma removeFirst_absent (s pat : jsstring) :
  includes s pat = false -> removeFirst s pat = s.
Proof.
  induction s as [|c s IH]; cbn [includes]; intros H;
    apply orb_false_iff in H as [Hstart Hrest];
    rewrite removeFirst_unfold, Hstart; [reflexivity|].
  f_equal. apply IH, Hrest.
Qed.

(** X15. [listFiles] asks for the first 100 entries under the prefix
    "{userId}/models/{modelId}/" (the ids as given, untrimmed), sorted by
    name; of the names the backend replies with, in their order, it
    removes the first occurrence of the prefix and leaves out those that
    come out empty.  So no name it returns is empty, full paths under the
    prefix come back relative to it, and names that do not contain the
    prefix come back as they are. *)
Theorem listFiles_strips_prefix (userId modelId : jsstring) (w : World)
  (names : list jsstring) (ms : N) :
  storageList (opsInvoked w) (js "model-files")
    (List (userId ++ js "/models/" ++ modelId ++ js "/") 100 0
       (js "name") (js "asc"))
  = Resolves (ReplyData names) ms ->
  Z.of_N ms < 10000 ->
  exists listed w',
    listFiles userId modelId w = Some (Returned listed, w')
    /\ opsInvoked w' = S (opsInvoked w)
    /\ Forall (fun name => name <> []) listed
    /\ (forall relative,
          names
          = map (fun name => (userId ++ js "/models/" ++ modelId ++ js "/")
                             ++ name)
                relative ->
          listed = filter (fun name => name <> []) relative)
    /\ (Forall
          (fun name =>
             includes name (userId ++ js "/models/" ++ modelId ++ js "/")
             = false)
          names ->
        listed = filter (fun name => name <> []) names).
Proof.
  intros Hop Hfast.
  set (prefix := userId ++ js "/models/" ++ modelId ++ js "/") in *.
  destruct (withRetry_first_resolves truthyReply
              (fun n =>
                 storageList n BUCKET_NAME
                   (List prefix 100 0 (js "name") (js "asc")))
              5 1000 w (ReplyData names) ms Hop Hfast eq_refl ltac:(lia))
    as (w0 & _ & Hops0 & Hrun).
  eexists _, (attempted (Z.of_N ms) w0). split.
  { unfold listFiles, bind. cbv zeta. fold prefix. rewrite Hrun.
    reflexivity. }
  split; [cbn; congruence|]. split.
  { apply Forall_forall. intros name Hin.
    apply list_elem_of_filter in Hin as [Hne _]. exact Hne. }
  split.
  - intros relative ->. f_equal. rewrite map_map.
    rewrite <- (map_id relative) at 2. apply map_ext.
    intros name. apply removeFirst_prefix.
  - intros Habsent. f_equal.
    rewrite <- (map_id names) at 2. apply map_ext_in.
    intros name Hin. apply removeFirst_absent.
    rewrite Forall_forall in Habsent. apply Habsent, list_elem_of_In, Hin.
Qed.

(** ** The hooks over the storage functions *)

Lemma uploadFile_completes (userId modelId filename : jsstring)
  (content : Content) (w : World) :
  exists c w', uploadFile userId modelId filename content w = Some (c, w').
Proof.
  destruct (runsLatched_uploadFile userId modelId filename content w)
    as (c & w' & Hrun & _).
  exists c, w'. exact Hrun.
Qed.

(** X18. [addFile] always settles.  Without a user it throws "Not
    authenticated" and touches neither the state nor the backend.  With a
    user it makes one call of [uploadFile], of the file name and the
    content under the user's id and the model, and what that call
    completes with decides: when it returns, [addFile] returns, the tree
    is replaced by the one rebuilt from the current top-level records and
    the new file, [loading] is false and [error] is left as it was, also
    an error of an earlier call; when it throws, [addFile] throws what
    was thrown if that is an Error object, and an Error "Failed to create
    file" otherwise, the same error is stored in [error], [loading] is
    false and the tree is left as it was.  The backend is left as the
    upload left it. *)
Theorem addFile_settles
  (buildFileTree : list Flat.FlatRecord -> list Node.FileNode)
  (user : option UseModelFiles.User) (modelId filename content : jsstring)
  (s : UseModelFiles.State) (w : World) :
  exists c s' w',
    addFile buildFileTree user modelId filename content s w = Some (c, s', w')
    /\ match user with
       | None =>
           c = Threw (ErrorObj (js "Not authenticated")) /\ s' = s /\ w' = w
       | Some u =>
           exists r,
             uploadFile (UseModelFiles.id u) modelId filename (Text content) w
             = Some (r, w')
             /\ match r with
                | Returned _ =>
                    c = Returned tt
                    /\ s' = UseModelFiles.mkState
                              (buildFileTree
                                 (flattenCurrent (UseModelFiles.files s)
                                  ++ [Flat.mkFlat filename content]))
                              false (UseModelFiles.error s)
                | Threw (ErrorObj message) =>
                    c = Threw (ErrorObj message)
                    /\ s' = UseModelFiles.mkState (UseModelFiles.files s)
                              false (Some (ErrorObj message))
                | Threw (NonError _) =>
                    c = Threw (ErrorObj (js "Failed to create file"))
                    /\ s' = UseModelFiles.mkState (UseModelFiles.files s)
                              false
                              (Some (ErrorObj (js "Failed to create file")))
                end
       end.
Proof.
  unfold addFile. destruct user as [u|].
  - destruct (uploadFile_completes (UseModelFiles.id u) modelId filename
                (Text content) w) as ([p|[m|r]] & w' & Hrun); rewrite Hrun.
    + eexists _, _, _. split; [reflexivity|].
      exists (Returned p). split; [reflexivity|]. split; reflexivity.
    + eexists _, _, _. split; [reflexivity|].
      exists (Threw (ErrorObj m)). split; [reflexivity|]. split; reflexivity.
    + eexists _, _, _. split; [reflexivity|].
      exists (Threw (NonError r)). split; [reflexivity|]. split; reflexivity.
  - eexists _, _, _. split; [reflexivity|]. repeat split.
Qed.

(** X19. [addFile] with a file name that is blank sends nothing: the
    validation error of the storage path is stored in [error] and thrown,
    the tree is as it was, and so is the backend. *)
Theorem addFile_blank_name_sends_nothing
  (buildFileTree : list Flat.FlatRecord -> list Node.FileNode)
  (u : UseModelFiles.User) (modelId filename content : jsstring)
  (s : UseModelFiles.State) (w : World) :
  trim filename = [] ->
  addFile buildFileTree (Some u) modelId filename content s w
  = Some (Threw (ErrorObj (js "Invalid path components")),
          UseModelFiles.mkState (UseModelFiles.files s) false
            (Some (ErrorObj (js "Invalid path components"))),
          w).
Proof.
  intros Hblank. unfold addFile, uploadFile, bind, liftCompletion.
  rewrite (buildStoragePath_blank (UseModelFiles.id u) modelId filename)
    by (right; right; exact Hblank).
  reflexivity.
Qed.

(** X20. [updateFile] always settles; it uploads the content under the path as
    [uploadFile] does, and keeps no tree.  Without a user it throws "Not
    authenticated" and touches nothing.  With a user it ends with
    [loading] false; what the upload throws is stored in [error] and
    thrown, as an Error object; a success leaves [error] as it was, also
    an error of an earlier call. *)
Theorem updateFile_settles (user : option UseModelFiles.User)
  (modelId path content : jsstring) (s : UpdateState) (w : World) :
  exists c s' w',
    updateFile user modelId path content s w = Some (c, s', w')
    /\ match user with
       | None =>
           c = Threw (ErrorObj (js "Not authenticated")) /\ s' = s /\ w' = w
       | Some u =>
           updateLoading s' = false
           /\ exists r,
                uploadFile (UseModelFiles.id u) modelId path (Text content) w
                = Some (r, w')
                /\ match r with
                   | Returned _ =>
                       c = Returned tt /\ updateError s' = updateError s
                   | Threw err =>
                       c = Threw (orError err (js "Failed to update file"))
                       /\ updateError s'
                          = Some (orError err (js "Failed to update file"))
                   end
       end.
Proof.
  unfold updateFile. destruct user as [u|].
  - destruct (uploadFile_completes (UseModelFiles.id u) modelId path
                (Text content) w) as ([p|err] & w' & Hrun); rewrite Hrun.
    + eexists _, _, _. split; [reflexivity|]. cbn.
      split; [reflexivity|]. exists (Returned p). repeat split.
    + eexists _, _, _. split; [reflexivity|]. cbn.
      split; [reflexivity|]. exists (Threw err). repeat split.
  - eexists _, _, _. split; [reflexivity|]. repeat split.
Qed.

(** X25. [getInitialSession] never throws, and the connection it awaits first
    does not gate it: reachable or not, the session is asked for and
    adopted.  After the cleanup of the effect it changes nothing.  While
    mounted it ends with [loading] false, and with [error] null exactly
    when the session came without error, in which case the user is the
    user of the session, or null without a session. *)
Theorem getInitialSession_adopts (getSession : Completion Auth.SessionReply)
  (s : Auth.State) (w : World) :
  exists s' w',
    getInitialSession getSession s w = Some (Returned tt, s', w')
    /\ Auth.mounted s' = Auth.mounted s
    /\ (Auth.mounted s = false -> s' = s)
    /\ (Auth.mounted s = true ->
        Auth.loading s' = false
        /\ (Auth.error s' = None <->
            exists reply,
              getSession = Returned reply /\ Auth.sessionError reply = None)
        /\ (forall reply,
              getSession = Returned reply -> Auth.sessionError reply = None ->
              Auth.user s' = Auth.sessionUser reply)).
Proof.
  unfold getInitialSession, waitForConnection, bind. cbn [dateNow].
  destruct (waitLoop_outcome (waitFuel 5000) 5000 (now w) w)
    as (b & w' & Hrun & _);
    [apply waitFuel_enough; lia | unfold waitFuel; lia |].
  rewrite Hrun. eexists _, w'. split; [reflexivity|].
  unfold Auth.adoptSession.
  destruct s as [u l e m]. cbn [Auth.mounted].
  destruct getSession as [[su [se|]]|err]; cbn [Auth.sessionError Auth.sessionUser];
    destruct m; cbn; (split; [reflexivity|]);
    (split; [intros H; first [discriminate H | reflexivity]|]);
    intros H; try discriminate H.
  - split; [reflexivity|]. split.
    + split; [intros H'; discriminate H'|].
      intros (reply & Hr & He). injection Hr as <-. discriminate He.
    + intros reply Hr He. injection Hr as <-. discriminate He.
  - split; [reflexivity|]. split.
    + split; [intros _; eexists; split; reflexivity|reflexivity].
    + intros reply Hr _. injection Hr as <-. reflexivity.
  - split; [reflexivity|]. split.
    + split; [intros H'; destruct err; discriminate H'|].
      intros (reply & Hr & _). discriminate Hr.
    + intros reply Hr. discriminate Hr.
Qed.

End Backend.

(** ** The retry loop on sample operations *)

Lemma withRetry_failed_to_fetch_exhausts_sample :
  exists err ms w0 w',
    ensureConnection Sample.probeUp Sample.world0 = Some (Returned tt, w0)
    /\ withRetry Sample.probeUp Sample.noJitter Sample.truthyOrNull
         Sample.alwaysFailedToFetch 3 1000 Sample.world0
       = Some (Threw err, w')
    /\ opsInvoked w' = (opsInvoked Sample.world0 + Z.to_nat 3)%nat
    /\ raceOutcome
         (Sample.alwaysFailedToFetch
            (opsInvoked Sample.world0 + Z.to_nat 3 - 1))
       = (Threw err, ms)
    /\ (forall message ms',
          Sample.alwaysFailedToFetch
            (opsInvoked Sample.world0 + Z.to_nat 3 - 1)
          = Rejects (ErrorObj message) ms' ->
          Z.of_N ms' < 10000 -> err = ErrorObj message)
    /\ isRetryableError err = true
    /\ length (sleeps w') = (length (sleeps w0) + Z.to_nat 3 - 1)%nat.
Proof.
  apply (withRetry_failed_to_fetch_exhausts Sample.probeUp Sample.noJitter
           Sample.truthyOrNull Sample.alwaysFailedToFetch 3 1000
           Sample.world0).
  - intros k. exists (js "TypeError: Failed to fetch"), 30%N.
    split; reflexivity.
  - lia.
Defined.

(** What the run of the sample is, step for step: three invocations, two
    backoffs (of 1000 and 2000 ms with no jitter), and the error of the
    third attempt. *)
Example withRetry_failed_to_fetch_run :
  match
    withRetry Sample.probeUp Sample.noJitter Sample.truthyOrNull
      Sample.alwaysFailedToFetch 3 1000 Sample.connectedWorld
  with
  | Some (c, w') => Some (c, opsInvoked w', sleeps w', now w')
  | None => None
  end
  = Some (Threw (ErrorObj (js "TypeError: Failed to fetch")), 3%nat,
          [1000%Q; 2000%Q], 3090).
Proof. vm_compute. reflexivity. Qed.

(** C2 fails on the code: an operation that resolves with [null], given
    five attempts, is invoked once, not again; no backoff is slept, and
    the "no data" error is thrown after the first attempt. *)
Lemma falsy_result_is_not_retried :
  exists w',
    withRetry Sample.probeUp Sample.noJitter Sample.truthyOrNull
      Sample.alwaysNull 5 1000 Sample.connectedWorld
    = Some (Threw (ErrorObj (js "Operation returned no data")), w')
    /\ opsInvoked w' = 1%nat
    /\ sleeps w' = [].
Proof. eexists. split; [vm_compute; reflexivity|]. split; reflexivity. Qed.

Lemma withRetry_falsy_result_throws_sample :
  exists w0,
    ensureConnection Sample.probeUp Sample.world0 = Some (Returned tt, w0)
    /\ withRetry Sample.probeUp Sample.noJitter Sample.truthyOrNull
         Sample.alwaysNull 5 1000 Sample.world0
       = Some (Threw (ErrorObj (js "Operation returned no data")),
               attempted (Z.of_N 30) w0)
    /\ opsInvoked (attempted (Z.of_N 30) w0) = S (opsInvoked Sample.world0)
    /\ sleeps (attempted (Z.of_N 30) w0) = sleeps w0
    /\ isRetryableError (ErrorObj (js "Operation returned no data")) = false.
Proof.
  apply (withRetry_falsy_result_throws Sample.probeUp Sample.noJitter
           Sample.truthyOrNull Sample.alwaysNull 5 1000 Sample.world0
           None 30%N).
  - reflexivity.
  - lia.
  - reflexivity.
  - lia.
Defined.

Lemma withRetry_non_retryable_throws_at_once_sample :
  exists w0,
    ensureConnection Sample.probeUp Sample.world0 = Some (Returned tt, w0)
    /\ withRetry Sample.probeUp Sample.noJitter Sample.truthyOrNull
         Sample.alwaysPermissionDenied 5 1000 Sample.world0
       = Some (Threw (ErrorObj (js "permission denied")),
               attempted (Z.of_N 30) w0)
    /\ opsInvoked (attempted (Z.of_N 30) w0) = S (opsInvoked Sample.world0)
    /\ sleeps (attempted (Z.of_N 30) w0) = sleeps w0.
Proof.
  apply (withRetry_non_retryable_throws_at_once Sample.probeUp
           Sample.noJitter Sample.truthyOrNull Sample.alwaysPermissionDenied
           5 1000 Sample.world0 (js "permission denied") 30%N).
  - reflexivity.
  - lia.
  - reflexivity.
  - lia.
Defined.

Lemma uploadFile_oversize_fails_before_any_call_sample :
  uploadFile Sample.probeUp Sample.noJitter Sample.noUpload
    (js "u1") (js "m1") (js "weights.bin") Sample.bigBlob Sample.world0
  = Some (Threw (ErrorObj (js "File size exceeds maximum limit of 500MB")),
          Sample.world0).
Proof.
  apply (uploadFile_oversize_fails_before_any_call Sample.probeUp
           Sample.noJitter Sample.noUpload (js "u1") (js "m1")
           (js "weights.bin") Sample.bigBlob Sample.world0
           (js "u1/models/m1/weights.bin")).
  - reflexivity.
  - reflexivity.
Defined.


(** The readiness loop on samples: up at the third probe, and never up. *)
Example waitForConnection_up_at_third :
  match waitForConnection Sample.probeUpAtThird 5000 Sample.world0 with
  | Some (c, w') => Some (c, isConnected w', probesIssued w', sleeps w', now w')
  | None => None
  end
  = Some (Returned true, true, 3%nat, [1000%Q; 1000%Q], 2060).
Proof. vm_compute. reflexivity. Qed.

Example waitForConnection_down :
  match waitForConnection Sample.probeDown 5000 Sample.world0 with
  | Some (c, w') => Some (c, isConnected w', probesIssued w', now w')
  | None => None
  end
  = Some (Returned false, false, 5%nat, 5100).
Proof. vm_compute. reflexivity. Qed.

(** ** Trimming *)

Lemma trimStart_split (s : jsstring) :
  exists l, s = l ++ trimStart s /\ forallb isWhiteSpace l = true.
Proof.
  induction s as [|c s IH]; cbn [trimStart].
  - exists []. split; reflexivity.
  - destruct (isWhiteSpace c) eqn:Hc.
    + destruct IH as (l & Hs & Hl). exists (c :: l). split.
      * cbn [app]. rewrite <- Hs. reflexivity.
      * cbn [forallb]. rewrite Hc, Hl. reflexivity.
    + exists []. split; reflexivity.
Qed.

Lemma trimStart_head (s : jsstring) :
  startsWithWhiteSpace (trimStart s) = false.
Proof.
  induction s as [|c s IH]; cbn [trimStart]; [reflexivity|].
  destruct (isWhiteSpace c) eqn:Hc; [exact IH|exact Hc].
Qed.

Lemma trimEnd_split (s : jsstring) :
  exists r, s = trimEnd s ++ r /\ forallb isWhiteSpace r = true.
Proof.
  destruct (trimStart_split (rev s)) as (l & Hs & Hl).
  exists (rev l). split.
  - unfold trimEnd. rewrite <- rev_app_distr, <- Hs, rev_involutive.
    reflexivity.
  - rewrite forallb_forall in *. intros x Hx. apply Hl, in_rev, Hx.
Qed.

Lemma trim_trimmedOf (s : jsstring) : trimmedOf s (trim s).
Proof.
  destruct (trimStart_split s) as (l & Hl & Hlws).
  destruct (trimEnd_split (trimStart s)) as (r & Hr & Hrws).
  exists l, r. fold (trim (trimStart s)) in Hr.
  split; [rewrite Hl at 1; f_equal; exact Hr|].
  split; [exact Hlws|]. split; [exact Hrws|]. split.
  - pose proof (trimStart_head s) as Hhead. unfold trim in *.
    rewrite Hr in Hhead.
    destruct (trimEnd (trimStart s)); [reflexivity|exact Hhead].
  - unfold trim, trimEnd. rewrite rev_involutive. apply trimStart_head.
Qed.

Lemma noSlash_app (a b : jsstring) :
  noSlash (a ++ b) = noSlash a && noSlash b.
Proof. unfold noSlash. apply forallb_app. Qed.

Lemma noSlash_trim (s : jsstring) : noSlash s = true -> noSlash (trim s) = true.
Proof.
  destruct (trim_trimmedOf s) as (l & r & Hs & _).
  intros H. rewrite Hs, !noSlash_app in H.
  apply andb_true_iff in H as [_ H]. apply andb_true_iff in H as [H _].
  exact H.
Qed.

(** ** Collapsing runs of slashes *)

Lemma isSlash_eq (c : N) : isSlash c = true -> c = slash.
Proof. unfold isSlash. apply N.eqb_eq. Qed.

Lemma dropSlashes_length (s : jsstring) :
  (length (dropSlashes s) <= length s)%nat.
Proof.
  induction s as [|c s IH]; cbn [dropSlashes]; [lia|].
  destruct (isSlash c); cbn [length]; lia.
Qed.

Lemma collapseRuns_slash (s : jsstring) :
  collapseRuns (slash :: s) = slash :: collapseRuns (dropSlashes s).
Proof.
  induction s as [|d s IH]; [reflexivity|].
  cbn [dropSlashes]. destruct (isSlash d) eqn:Hd.
  - rewrite <- IH. apply isSlash_eq in Hd. subst d. reflexivity.
  - cbn [collapseRuns headIsSlash]. rewrite Hd, andb_false_r. reflexivity.
Qed.

Lemma replaceSlashRuns_collapseRuns (fuel : nat) :
  forall s, (length s <= fuel)%nat -> replaceSlashRuns fuel s = collapseRuns s.
Proof.
  induction fuel as [|fuel IH]; intros [|c s] Hlen; cbn [length] in Hlen;
    try reflexivity; [lia|].
  cbn [replaceSlashRuns]. destruct (isSlash c) eqn:Hc.
  - apply isSlash_eq in Hc. subst c. rewrite collapseRuns_slash. f_equal.
    apply IH. pose proof (dropSlashes_length s). lia.
  - cbn [collapseRuns]. rewrite Hc. cbn [andb]. f_equal. apply IH. lia.
Qed.

(** The scan the regular expression makes collapses every run. *)
Lemma collapseSlashes_collapseRuns (s : jsstring) :
  collapseSlashes s = collapseRuns s.
Proof. apply replaceSlashRuns_collapseRuns. reflexivity. Qed.

Lemma headIsSlash_collapseRuns (s : jsstring) :
  headIsSlash (collapseRuns s) = headIsSlash s.
Proof.
  induction s as [|c s IH]; [reflexivity|].
  cbn [collapseRuns]. destruct (isSlash c && headIsSlash s) eqn:Hrun.
  - apply andb_true_iff in Hrun as [Hc Hs]. rewrite IH, Hs. symmetry. exact Hc.
  - reflexivity.
Qed.

Lemma noSlashRun_collapseRuns (s : jsstring) : noSlashRun (collapseRuns s) = true.
Proof.
  induction s as [|c s IH]; [reflexivity|].
  cbn [collapseRuns]. destruct (isSlash c && headIsSlash s) eqn:Hrun;
    [exact IH|].
  cbn [noSlashRun]. rewrite headIsSlash_collapseRuns, Hrun, IH. reflexivity.
Qed.

Lemma collapseRuns_noSlash_app (a t : jsstring) :
  noSlash a = true -> collapseRuns (a ++ t) = a ++ collapseRuns t.
Proof.
  induction a as [|c a IH]; intros Ha; [reflexivity|].
  cbn [noSlash forallb] in Ha. apply andb_true_iff in Ha as [Hc Ha].
  apply negb_true_iff in Hc.
  cbn [app collapseRuns]. rewrite Hc. cbn [andb]. f_equal. apply IH, Ha.
Qed.

Lemma collapseRuns_noSlash (a : jsstring) :
  noSlash a = true -> collapseRuns a = a.
Proof.
  intros Ha. rewrite <- (app_nil_r a) at 1.
  rewrite collapseRuns_noSlash_app by exact Ha. apply app_nil_r.
Qed.

Lemma collapseRuns_slash_keeps (t : jsstring) :
  headIsSlash t = false -> collapseRuns (slash :: t) = slash :: collapseRuns t.
Proof. intros Ht. cbn [collapseRuns]. rewrite Ht, andb_false_r. reflexivity. Qed.

Lemma headIsSlash_noSlash_app (a t : jsstring) :
  a <> [] -> noSlash a = true -> headIsSlash (a ++ t) = false.
Proof.
  intros Hne Ha. destruct a as [|c a]; [contradiction|].
  cbn [noSlash forallb] in Ha. apply andb_true_iff in Ha as [Hc _].
  apply negb_true_iff in Hc. exact Hc.
Qed.

(** Components without slashes, none empty, compose to a path that has no
    run to collapse. *)
Lemma collapseRuns_components (a b c : jsstring) :
  noSlash a = true -> noSlash b = true -> noSlash c = true ->
  b <> [] -> c <> [] ->
  collapseRuns (a ++ js "/models/" ++ b ++ js "/" ++ c)
  = a ++ js "/models/" ++ b ++ js "/" ++ c.
Proof.
  intros Ha Hb Hc Hbne Hcne.
  rewrite collapseRuns_noSlash_app by exact Ha. f_equal.
  change (js "/models/") with (slash :: js "models" ++ [slash]).
  change (js "/") with [slash].
  cbn [app]. rewrite <- !app_assoc. cbn [app].
  rewrite collapseRuns_slash_keeps by reflexivity. f_equal.
  rewrite collapseRuns_noSlash_app by reflexivity. f_equal.
  rewrite collapseRuns_slash_keeps
    by (apply headIsSlash_noSlash_app; assumption). f_equal.
  rewrite collapseRuns_noSlash_app by exact Hb. f_equal.
  rewrite collapseRuns_slash_keeps.
  - f_equal. apply collapseRuns_noSlash, Hc.
  - rewrite <- (app_nil_r c). apply headIsSlash_noSlash_app; assumption.
Qed.

(** A string is cut at its first slash in one way only. *)
Lemma first_slash_unique (a a' t t' : jsstring) :
  noSlash a = true -> noSlash a' = true ->
  a ++ slash :: t = a' ++ slash :: t' -> a = a' /\ t = t'.
Proof.
  revert a'. induction a as [|c a IH]; intros [|c' a'] Ha Ha' Heq;
    cbn [app] in Heq.
  - injection Heq as ->. split; reflexivity.
  - injection Heq as <- _. discriminate Ha'.
  - injection Heq as -> _. discriminate Ha.
  - injection Heq as -> Heq.
    cbn [noSlash forallb] in Ha, Ha'.
    apply andb_true_iff in Ha as [_ Ha]. apply andb_true_iff in Ha' as [_ Ha'].
    destruct (IH a' Ha Ha' Heq) as [-> ->]. split; reflexivity.
Qed.

(** ** [buildStoragePath] *)

Lemma buildStoragePath_returns (userId modelId filename : jsstring) :
  trim userId <> [] -> trim modelId <> [] -> trim filename <> [] ->
  buildStoragePath userId modelId filename
  = Returned
      (collapseRuns
         (trim userId ++ js "/models/" ++ trim modelId ++ js "/"
          ++ trim filename)).
Proof.
  intros Hu Hm Hf. unfold buildStoragePath.
  rewrite collapseSlashes_collapseRuns.
  destruct (trim userId); [contradiction|].
  destruct (trim modelId); [contradiction|].
  destruct (trim filename); [contradiction|]. reflexivity.
Qed.

Lemma buildStoragePath_throws (userId modelId filename : jsstring) :
  trim userId = [] \/ trim modelId = [] \/ trim filename = [] ->
  buildStoragePath userId modelId filename
  = Threw (ErrorObj (js "Invalid path components")).
Proof.
  intros H. unfold buildStoragePath.
  destruct (trim userId), (trim modelId), (trim filename); try reflexivity.
  destruct H as [H|[H|H]]; discriminate H.
Qed.

Lemma components_present_or_not (userId modelId filename : jsstring) :
  (trim userId = [] \/ trim modelId = [] \/ trim filename = [])
  \/ (trim userId <> [] /\ trim modelId <> [] /\ trim filename <> []).
Proof.
  destruct (trim userId); [left; left; reflexivity|].
  destruct (trim modelId); [left; right; left; reflexivity|].
  destruct (trim filename); [left; right; right; reflexivity|].
  right. repeat split; discriminate.
Qed.

(** C4. [buildStoragePath] trims its three inputs; it throws the
    validation error if and only if one of them is empty once trimmed; and
    otherwise it returns "{userId}/models/{modelId}/{filename}", built
    from the trimmed components, with every run of slashes collapsed to a
    single slash, so that no slash follows a slash in the result. *)
Theorem buildStoragePath_spec (userId modelId filename : jsstring) :
  trimmedOf userId (trim userId)
  /\ trimmedOf modelId (trim modelId)
  /\ trimmedOf filename (trim filename)
  /\ (buildStoragePath userId modelId filename
      = Threw (ErrorObj (js "Invalid path components"))
      <-> trim userId = [] \/ trim modelId = [] \/ trim filename = [])
  /\ (trim userId <> [] /\ trim modelId <> [] /\ trim filename <> [] <->
      buildStoragePath userId modelId filename
      = Returned
          (collapseRuns
             (trim userId ++ js "/models/" ++ trim modelId ++ js "/"
              ++ trim filename)))
  /\ (forall storagePath,
        buildStoragePath userId modelId filename = Returned storagePath ->
        noSlashRun storagePath = true).
Proof.
  split; [apply trim_trimmedOf|]. split; [apply trim_trimmedOf|].
  split; [apply trim_trimmedOf|].
  destruct (components_present_or_not userId modelId filename)
    as [Hempty|(Hu & Hm & Hf)].
  - pose proof (buildStoragePath_throws _ _ _ Hempty) as Hthrow.
    split; [split; [intros _; exact Hempty|intros _; exact Hthrow]|].
    split.
    + split; [|rewrite Hthrow; discriminate].
      intros (Hu & Hm & Hf). destruct Hempty as [H|[H|H]]; contradiction.
    + intros p Hp. rewrite Hthrow in Hp. discriminate Hp.
  - pose proof (buildStoragePath_returns _ _ _ Hu Hm Hf) as Hret.
    split.
    + split; [rewrite Hret; discriminate|].
      intros [H|[H|H]]; contradiction.
    + split; [split; [intros _; exact Hret|intros _; repeat split; assumption]|].
      intros p Hp. rewrite Hret in Hp. injection Hp as <-.
      apply noSlashRun_collapseRuns.
Qed.

Example buildStoragePath_collapses :
  buildStoragePath (js " u1 ") (js "m1//") (js "/dir//a.txt")
  = Returned (js "u1/models/m1/dir/a.txt").
Proof. reflexivity. Qed.

Example buildStoragePath_rejects_blank :
  buildStoragePath (js "u1") (js "   ") (js "a.txt")
  = Threw (ErrorObj (js "Invalid path components")).
Proof. reflexivity. Qed.

(** C5 fails on the code: two distinct triples, without slashes and not
    empty once trimmed, have the same path when they differ in white space
    at the ends only. *)
Lemma buildStoragePath_not_injective :
  noSlash (js " a") = true /\ trim (js " a") <> []
  /\ noSlash (js "a") = true /\ trim (js "a") <> []
  /\ noSlash (js "m") = true /\ trim (js "m") <> []
  /\ noSlash (js "f") = true /\ trim (js "f") <> []
  /\ (js " a", js "m", js "f") <> (js "a", js "m", js "f")
  /\ buildStoragePath (js " a") (js "m") (js "f")
     = buildStoragePath (js "a") (js "m") (js "f").
Proof. repeat split; discriminate. Qed.

(** The amended C5. On inputs without slashes that are not empty once
    trimmed, [buildStoragePath] is a function of the trimmed components
    and injective in them: two triples have the same path exactly when
    their components are equal after trimming. *)
Theorem buildStoragePath_injective_up_to_trim
  (userId modelId filename userId' modelId' filename' : jsstring) :
  noSlash userId = true -> noSlash modelId = true -> noSlash filename = true ->
  noSlash userId' = true -> noSlash modelId' = true ->
  noSlash filename' = true ->
  trim userId <> [] -> trim modelId <> [] -> trim filename <> [] ->
  trim userId' <> [] -> trim modelId' <> [] -> trim filename' <> [] ->
  (buildStoragePath userId modelId filename
   = buildStoragePath userId' modelId' filename'
   <-> trim userId = trim userId' /\ trim modelId = trim modelId'
       /\ trim filename = trim filename')
  /\ buildStoragePath userId modelId filename
     = Returned
         (trim userId ++ js "/models/" ++ trim modelId ++ js "/"
          ++ trim filename).
Proof.
  intros Hu Hm Hf Hu' Hm' Hf' Nu Nm Nf Nu' Nm' Nf'.
  apply noSlash_trim in Hu, Hm, Hf, Hu', Hm', Hf'.
  rewrite !buildStoragePath_returns by assumption.
  rewrite !collapseRuns_components by assumption.
  split; [|reflexivity]. split.
  - intros Heq. injection Heq as Heq.
    change (js "/models/") with (slash :: js "models" ++ [slash]) in Heq.
    change (js "/") with [slash] in Heq.
    cbn [app] in Heq.
    apply first_slash_unique in Heq as [Hu_eq Heq]; [|assumption..].
    apply (first_slash_unique (js "models") (js "models")) in Heq as [_ Heq];
      [|reflexivity..].
    apply first_slash_unique in Heq as [Hm_eq Hf_eq]; [|assumption..].
    repeat split; assumption.
  - intros (-> & -> & ->). reflexivity.
Qed.

Lemma buildStoragePath_injective_up_to_trim_sample :
  (buildStoragePath (js " a") (js "m") (js "f")
   = buildStoragePath (js "a") (js "m ") (js "f")
   <-> trim (js " a") = trim (js "a") /\ trim (js "m") = trim (js "m ")
       /\ trim (js "f") = trim (js "f"))
  /\ buildStoragePath (js " a") (js "m") (js "f")
     = Returned
         (trim (js " a") ++ js "/models/" ++ trim (js "m") ++ js "/"
          ++ trim (js "f")).
Proof.
  apply (buildStoragePath_injective_up_to_trim
           (js " a") (js "m") (js "f") (js "a") (js "m ") (js "f"));
    first [reflexivity | discriminate].
Defined.

(** ** [readEnvVariable] *)

Lemma readEnvVariable_falls_through (systemVar viteVar : jsstring)
  (isRequired : bool) (w : World) :
  truthyString (processEnv w !! systemVar) = false ->
  truthyString (importMetaEnv w !! viteVar) = false ->
  observed (readEnvVariable systemVar viteVar isRequired w)
  = if isRequired then
      let errMsg :=
        js "Missing required environment variable: '" ++ systemVar
        ++ js "' or '" ++ viteVar ++ js "'." in
      Some (Threw
              (ErrorObj
                 (errMsg
                  ++ js " Please set it in your system environment or in your .env file.")),
            (logs w ++ [(ConsoleError, [LStr errMsg])])
            ++ [(Stderr,
                 [LStr (ESC ++ js "[31m[Terminal] " ++ errMsg ++ ESC
                        ++ js "[0m" ++ LF)])])
    else Some (Returned None, logs w).
Proof.
  intros Hsys Hvite. unfold readEnvVariable, bind, getWorld.
  rewrite Hsys, Hvite. destruct isRequired; reflexivity.
Qed.

(** C9. [readEnvVariable] treats a variable bound to the empty string as
    an absent one, under the system name and under the VITE_ name alike:
    what it returns or throws, and what it logs, is what it does with the
    binding deleted.  With the system variable empty it falls through to
    the VITE_ variable: a non-empty value there is returned, and the
    fallback is logged.  With the VITE_ variable empty too it falls
    through to the test of [isRequired]: a required variable throws the
    missing-variable error, which names both variables, and an optional
    one gives [undefined]; the empty string is not returned. *)
Theorem readEnvVariable_empty_is_absent (systemVar viteVar : jsstring)
  (isRequired : bool) (w : World) :
  (processEnv w !! systemVar = Some [] ->
   observed (readEnvVariable systemVar viteVar isRequired w)
   = observed
       (readEnvVariable systemVar viteVar isRequired
          (setProcessEnv (delete systemVar (processEnv w)) w)))
  /\ (importMetaEnv w !! viteVar = Some [] ->
      observed (readEnvVariable systemVar viteVar isRequired w)
      = observed
          (readEnvVariable systemVar viteVar isRequired
             (setImportMetaEnv (delete viteVar (importMetaEnv w)) w)))
  /\ (processEnv w !! systemVar = Some [] ->
      importMetaEnv w !! viteVar = Some [] ->
      exists w',
        readEnvVariable systemVar viteVar true w
        = Some (Threw
                  (ErrorObj
                     (js "Missing required environment variable: '"
                      ++ systemVar ++ js "' or '" ++ viteVar
                      ++ js "'. Please set it in your system environment or in your .env file.")),
                w'))
  /\ (processEnv w !! systemVar = Some [] ->
      forall c value,
        importMetaEnv w !! viteVar = Some (c :: value) ->
        readEnvVariable systemVar viteVar isRequired w
        = Some (Returned (Some (c :: value)),
                setLogs
                  (logs w
                   ++ [(ConsoleLog,
                        [LStr (js "Falling back to .env variable for: "
                               ++ viteVar)]);
                       (Stdout,
                        [LStr (ESC
                               ++ js "[33m[Terminal] Falling back to .env variable for: "
                               ++ viteVar ++ ESC ++ js "[0m" ++ LF)])])
                  w))
  /\ (processEnv w !! systemVar = Some [] \/ processEnv w !! systemVar = None ->
      importMetaEnv w !! viteVar = Some [] ->
      readEnvVariable systemVar viteVar isRequired w
      = if isRequired then
          Some (Threw
                  (ErrorObj
                     (js "Missing required environment variable: '"
                      ++ systemVar ++ js "' or '" ++ viteVar
                      ++ js "'. Please set it in your system environment or in your .env file.")),
                setLogs
                  (logs w
                   ++ [(ConsoleError,
                        [LStr (js "Missing required environment variable: '"
                               ++ systemVar ++ js "' or '" ++ viteVar
                               ++ js "'.")]);
                       (Stderr,
                        [LStr (ESC ++ js "[31m[Terminal] "
                               ++ (js "Missing required environment variable: '"
                                   ++ systemVar ++ js "' or '" ++ viteVar
                                   ++ js "'.")
                               ++ ESC ++ js "[0m" ++ LF)])])
                  w)
        else Some (Returned None, w)).
Proof.
  split; [|split; [|split; [|split]]].
  - intros Hsys. unfold readEnvVariable, bind, getWorld.
    cbn [processEnv importMetaEnv setProcessEnv].
    rewrite Hsys, lookup_delete_eq. cbn [truthyString].
    destruct (truthyString (importMetaEnv w !! viteVar)); [reflexivity|].
    destruct isRequired; reflexivity.
  - intros Hvite. unfold readEnvVariable, bind, getWorld.
    cbn [processEnv importMetaEnv setImportMetaEnv].
    rewrite Hvite, lookup_delete_eq. cbn [truthyString].
    destruct (truthyString (processEnv w !! systemVar)); [reflexivity|].
    destruct isRequired; reflexivity.
  - intros Hsys Hvite. unfold readEnvVariable, bind, getWorld.
    rewrite Hsys, Hvite. cbn [truthyString]. eexists.
    cbn [emit throw]. do 3 f_equal.
    rewrite <- !app_assoc. reflexivity.
  - intros Hsys c value Hvite. unfold readEnvVariable, bind, getWorld.
    rewrite Hsys, Hvite. cbn [truthyString]. cbn -[js app].
    rewrite <- !app_assoc. reflexivity.
  - intros Hsys Hvite. unfold readEnvVariable, bind, getWorld.
    rewrite Hvite. destruct Hsys as [-> | ->]; cbn [truthyString];
      destruct isRequired; try reflexivity;
      cbn -[js app]; rewrite <- !app_assoc; reflexivity.
Qed.

(** An empty SUPABASE_URL gives way to VITE_SUPABASE_URL. *)
Example readEnvVariable_empty_system_falls_back :
  observed
    (readEnvVariable (js "SUPABASE_URL") (js "VITE_SUPABASE_URL") true
       (initialWorld
          {[ js "SUPABASE_URL" := [] ]}
          {[ js "VITE_SUPABASE_URL" := js "https://x.supabase.co" ]}))
  = Some (Returned (Some (js "https://x.supabase.co")),
          [(ConsoleLog,
            [LStr (js "Falling back to .env variable for: VITE_SUPABASE_URL")]);
           (Stdout,
            [LStr (ESC
                   ++ js "[33m[Terminal] Falling back to .env variable for: VITE_SUPABASE_URL"
                   ++ ESC ++ js "[0m" ++ LF)])]).
Proof. vm_compute. reflexivity. Qed.

Example readEnvVariable_both_empty_required_throws :
  match
    readEnvVariable (js "SUPABASE_URL") (js "VITE_SUPABASE_URL") true
      (initialWorld
         {[ js "SUPABASE_URL" := [] ]} {[ js "VITE_SUPABASE_URL" := [] ]})
  with
  | Some (c, _) => Some c
  | None => None
  end
  = Some (Threw
            (ErrorObj
               (js "Missing required environment variable: 'SUPABASE_URL' or 'VITE_SUPABASE_URL'. Please set it in your system environment or in your .env file."))).
Proof. vm_compute. reflexivity. Qed.

(** ** The merge step of [addFile] and [uploadFiles] *)

Lemma flattenCurrent_withoutChildren (current : list Node.FileNode) :
  flattenCurrent (map Node.withoutChildren current) = flattenCurrent current.
Proof.
  unfold flattenCurrent. rewrite map_map. apply map_ext.
  intros [n t p c s lm ch]. reflexivity.
Qed.

Lemma flattenCurrent_paths (current : list Node.FileNode) :
  map Flat.path (flattenCurrent current) = map Node.path current.
Proof. unfold flattenCurrent. rewrite map_map. reflexivity. Qed.

(** *** With the tree builder of the specification *)

Lemma filePaths_unfold (n : jsstring) (t : Node.NodeType) (p : jsstring)
  (c : option jsstring) (s : option Z) (lm : option jsstring)
  (ch : option (list Node.FileNode)) :
  Node.filePaths (Node.mkFileNode n t p c s lm ch)
  = match t with Node.file => [p] | Node.directory => [] end
    ++ match ch with
       | Some l => Node.forestFilePaths l
       | None => []
       end.
Proof.
  destruct ch as [l|]; [|reflexivity].
  cbn [Node.filePaths]. apply (f_equal (app _)).
  unfold Node.forestFilePaths.
  induction l as [|g l IH]; [reflexivity|].
  cbn [flat_map]. rewrite <- IH. reflexivity.
Qed.

Lemma upsert_filePaths (p : Node.FileNode -> bool)
  (f : option Node.FileNode -> Node.FileNode) (l : list Node.FileNode)
  (x : jsstring) :
  In x (Node.forestFilePaths (upsert p f l)) ->
  In x (Node.forestFilePaths l)
  \/ In x (Node.filePaths (f None))
  \/ exists g, In g l /\ In x (Node.filePaths (f (Some g))).
Proof.
  unfold Node.forestFilePaths.
  induction l as [|g l IH]; cbn [upsert flat_map].
  - rewrite app_nil_r. intros H. right. left. exact H.
  - destruct (p g); cbn [flat_map]; rewrite !in_app_iff.
    + intros [H|H].
      * right. right. exists g. split; [left; reflexivity|exact H].
      * left. right. exact H.
    + intros [H|H]; [left; left; exact H|].
      destruct (IH H) as [H'|[H'|(g' & Hg' & H')]].
      * left. right. exact H'.
      * right. left. exact H'.
      * right. right. exists g'. split; [right; exact Hg'|exact H'].
Qed.

Lemma filePaths_in_forest (g : Node.FileNode) (l : list Node.FileNode)
  (x : jsstring) :
  In g l -> In x (Node.filePaths g) -> In x (Node.forestFilePaths l).
Proof.
  intros Hg Hx. unfold Node.forestFilePaths. apply in_flat_map.
  exists g. split; assumption.
Qed.

(** Inserting a record brings no file path but its own. *)
Lemma insertRecord_filePaths (timestamp : jsstring) (segments : list jsstring) :
  forall (dir : jsstring) (r : Flat.FlatRecord) (level : list Node.FileNode)
         (x : jsstring),
    In x (Node.forestFilePaths (insertRecord timestamp segments dir r level)) ->
    In x (Node.forestFilePaths level) \/ x = Flat.path r.
Proof.
  induction segments as [|segment rest IH]; intros dir r level x;
    cbn [insertRecord]; [intros H; left; exact H|].
  destruct rest as [|next rest].
  - intros H. apply upsert_filePaths in H as [H|[H|(g & _ & H)]].
    + left. exact H.
    + right. destruct H as [H|[]]. symmetry. exact H.
    + right. destruct H as [H|[]]. symmetry. exact H.
  - intros H. apply upsert_filePaths in H as [H|[H|(g & Hg & H)]].
    + left. exact H.
    + rewrite filePaths_unfold in H. cbn [app] in H.
      apply IH in H as [[]|H]. right. exact H.
    + destruct g as [n t p c s lm ch].
      rewrite filePaths_unfold, in_app_iff in H. destruct H as [H|H].
      * left. apply (filePaths_in_forest _ _ _ Hg).
        rewrite filePaths_unfold, in_app_iff. left. exact H.
      * apply IH in H as [H|H]; [|right; exact H].
        left. apply (filePaths_in_forest _ _ _ Hg).
        rewrite filePaths_unfold, in_app_iff. right.
        destruct ch as [chl|]; [exact H|destruct H].
Qed.

Lemma fold_insert_filePaths (timestamp : jsstring)
  (records : list Flat.FlatRecord) :
  forall (tree : list Node.FileNode) (x : jsstring),
    In x (Node.forestFilePaths
            (fold_left
               (fun tree r =>
                  insertRecord timestamp (splitOn slash (Flat.path r)) [] r tree)
               records tree)) ->
    In x (Node.forestFilePaths tree) \/ In x (map Flat.path records).
Proof.
  induction records as [|r records IH]; intros tree x; cbn [fold_left map].
  - intros H. left. exact H.
  - intros H. apply IH in H as [H|H].
    + apply insertRecord_filePaths in H as [H|H];
        [left; exact H|right; left; symmetry; exact H].
    + right. right. exact H.
Qed.

(** The file nodes of a built tree carry paths of the records. *)
Lemma buildFileTree_filePaths (timestamp : jsstring)
  (records : list Flat.FlatRecord) (x : jsstring) :
  In x (Node.forestFilePaths (buildFileTree timestamp records)) ->
  In x (map Flat.path records).
Proof.
  intros H. apply fold_insert_filePaths in H as [[]|H]. exact H.
Qed.

(** With the builder of the specification, a file nested in a node of the
    current tree is not in the tree [addFile] rebuilds, unless its path is
    the path of a top-level node or of the file that is added. *)
Lemma addFile_drops_nested_files (timestamp : jsstring)
  (current : list Node.FileNode) (filename content : jsstring)
  (d : Node.FileNode) (p : jsstring) :
  In d current ->
  In p (Node.nestedFilePaths d) ->
  ~ In p (map Node.path current) ->
  p <> filename ->
  ~ In p (Node.forestFilePaths
            (addFileUpdater (buildFileTree timestamp) filename content current)).
Proof.
  intros _ _ Hfresh Hnew H. unfold addFileUpdater in H.
  apply buildFileTree_filePaths in H.
  rewrite map_app, in_app_iff, flattenCurrent_paths in H.
  destruct H as [H|[H|[]]]; [exact (Hfresh H)|exact (Hnew (eq_sym H))].
Qed.

Lemma uploadFiles_drops_nested_files (timestamp : jsstring)
  (current : list Node.FileNode) (results : list Flat.FlatRecord)
  (p : jsstring) :
  ~ In p (map Node.path current) ->
  ~ In p (map Flat.path results) ->
  ~ In p (Node.forestFilePaths
            (uploadFilesUpdater (buildFileTree timestamp) results current)).
Proof.
  intros Hfresh Hnew H. unfold uploadFilesUpdater in H. cbv zeta in H.
  apply buildFileTree_filePaths in H.
  rewrite map_app, in_app_iff, flattenCurrent_paths, map_map in H.
  cbn [Flat.path] in H.
  destruct H as [H|H]; [exact (Hfresh H)|exact (Hnew H)].
Qed.

Lemma flattenCurrent_app (l1 l2 : list Node.FileNode) :
  flattenCurrent (l1 ++ l2) = flattenCurrent l1 ++ flattenCurrent l2.
Proof. unfold flattenCurrent. apply map_app. Qed.

(** C10. The merge step of [addFile] and of [uploadFiles] flattens the
    top-level nodes only, each to one record of its path and of its
    content, or of the empty string when it has no content or an empty
    one.  So, for a current tree with a node that has children and no
    content, a directory: the directory contributes one record, its own
    path with empty content; the tree is rebuilt, by any builder, from
    the records of the top-level nodes with every subtree cut off; and a
    file nested in the directory, whose path is not that of a top-level
    node, is not carried into the flat set, and so is not a file of the
    tree that [buildFileTree] rebuilds, unless it is what is added or
    uploaded. *)
Theorem merge_step_flattens_top_level_only
  (builder : list Flat.FlatRecord -> list Node.FileNode) (timestamp : jsstring)
  (current : list Node.FileNode) (filename content : jsstring)
  (results : list Flat.FlatRecord)
  (d : Node.FileNode) (nested : list Node.FileNode) :
  let record (f : Node.FileNode) :=
    Flat.mkFlat (Node.path f)
      (match Node.content f with
       | Some (c :: s) => c :: s
       | Some [] | None => []
       end) in
  In d current ->
  Node.content d = None ->
  Node.children d = Some nested ->
  flattenCurrent current = map record current
  /\ length (flattenCurrent current) = length current
  /\ (exists before after,
        current = before ++ d :: after
        /\ flattenCurrent current
           = map record before ++ Flat.mkFlat (Node.path d) []
             :: map record after)
  /\ addFileUpdater builder filename content current
     = builder (map record (map Node.withoutChildren current)
                ++ [Flat.mkFlat filename content])
  /\ uploadFilesUpdater builder results current
     = builder (map record (map Node.withoutChildren current) ++ results)
  /\ (forall p,
        In p (Node.forestFilePaths nested) ->
        ~ In p (map Node.path current) ->
        ~ In p (map Flat.path (flattenCurrent current))
        /\ (p <> filename ->
            ~ In p (Node.forestFilePaths
                      (addFileUpdater (buildFileTree timestamp) filename
                         content current)))
        /\ (~ In p (map Flat.path results) ->
            ~ In p (Node.forestFilePaths
                      (uploadFilesUpdater (buildFileTree timestamp) results
                         current)))).
Proof.
  intros record Hd Hcontent Hnested.
  assert (Hflat : forall l, flattenCurrent l = map record l).
  { intros l. unfold flattenCurrent. apply map_ext.
    intros [n t p [[|c s]|] sz lm ch]; reflexivity. }
  split; [apply Hflat|].
  split; [unfold flattenCurrent; apply length_map|].
  split.
  { apply in_split in Hd as (before & after & ->).
    exists before, after. split; [reflexivity|].
    rewrite Hflat, map_app. cbn [map]. do 2 f_equal.
    unfold record. rewrite Hcontent. reflexivity. }
  split.
  { unfold addFileUpdater.
    rewrite <- (Hflat (map Node.withoutChildren current)).
    rewrite flattenCurrent_withoutChildren. reflexivity. }
  split.
  { unfold uploadFilesUpdater. cbv zeta.
    rewrite <- (Hflat (map Node.withoutChildren current)).
    rewrite flattenCurrent_withoutChildren. do 2 f_equal.
    rewrite <- (map_id results) at 2. apply map_ext. intros [p c]. reflexivity. }
  intros p Hp Hfresh. split; [rewrite flattenCurrent_paths; exact Hfresh|].
  split.
  - intros Hnew. apply (addFile_drops_nested_files timestamp current filename
                          content d p Hd); [|exact Hfresh|exact Hnew].
    unfold Node.nestedFilePaths. rewrite Hnested. exact Hp.
  - intros Hnew. apply uploadFiles_drops_nested_files; assumption.
Qed.

Lemma merge_step_flattens_top_level_only_sample :
  flattenCurrent Sample.tree
  = map (fun f =>
           Flat.mkFlat (Node.path f)
             (match Node.content f with
              | Some (c :: s) => c :: s
              | Some [] | None => []
              end))
        Sample.tree
  /\ length (flattenCurrent Sample.tree) = length Sample.tree
  /\ (exists before after,
        Sample.tree = before ++ Sample.dirA :: after
        /\ flattenCurrent Sample.tree
           = map (fun f =>
                    Flat.mkFlat (Node.path f)
                      (match Node.content f with
                       | Some (c :: s) => c :: s
                       | Some [] | None => []
                       end))
                 before
             ++ Flat.mkFlat (Node.path Sample.dirA) []
             :: map (fun f =>
                       Flat.mkFlat (Node.path f)
                         (match Node.content f with
                          | Some (c :: s) => c :: s
                          | Some [] | None => []
                          end))
                    after)
  /\ addFileUpdater (buildFileTree (js "t1")) (js "n.txt") (js "z") Sample.tree
     = buildFileTree (js "t1")
         (map (fun f =>
                 Flat.mkFlat (Node.path f)
                   (match Node.content f with
                    | Some (c :: s) => c :: s
                    | Some [] | None => []
                    end))
              (map Node.withoutChildren Sample.tree)
          ++ [Flat.mkFlat (js "n.txt") (js "z")])
  /\ uploadFilesUpdater (buildFileTree (js "t1"))
       [Flat.mkFlat (js "n.txt") (js "z")] Sample.tree
     = buildFileTree (js "t1")
         (map (fun f =>
                 Flat.mkFlat (Node.path f)
                   (match Node.content f with
                    | Some (c :: s) => c :: s
                    | Some [] | None => []
                    end))
              (map Node.withoutChildren Sample.tree)
          ++ [Flat.mkFlat (js "n.txt") (js "z")])
  /\ (forall p,
        In p (Node.forestFilePaths
                [ Node.mkFileNode (js "b.txt") Node.file (js "a/b.txt")
                    (Some (js "x")) (Some 1) (Some (js "t0")) None ]) ->
        ~ In p (map Node.path Sample.tree) ->
        ~ In p (map Flat.path (flattenCurrent Sample.tree))
        /\ (p <> js "n.txt" ->
            ~ In p (Node.forestFilePaths
                      (addFileUpdater (buildFileTree (js "t1")) (js "n.txt")
                         (js "z") Sample.tree)))
        /\ (~ In p (map Flat.path [Flat.mkFlat (js "n.txt") (js "z")]) ->
            ~ In p (Node.forestFilePaths
                      (uploadFilesUpdater (buildFileTree (js "t1"))
                         [Flat.mkFlat (js "n.txt") (js "z")] Sample.tree)))).
Proof.
  apply (merge_step_flattens_top_level_only (buildFileTree (js "t1"))
           (js "t1") Sample.tree (js "n.txt") (js "z")
           [Flat.mkFlat (js "n.txt") (js "z")] Sample.dirA
           [ Node.mkFileNode (js "b.txt") Node.file (js "a/b.txt")
               (Some (js "x")) (Some 1) (Some (js "t0")) None ]).
  - left. reflexivity.
  - reflexivity.
  - reflexivity.
Defined.

(** On the sample: [a/b.txt] is a file of the current tree; after
    [addFile('n.txt', 'z')] the directory [a] has become an empty file
    and [a/b.txt] is gone. *)
Example addFile_drops_nested_file_of_sample :
  Node.forestFilePaths Sample.tree = [js "a/b.txt"; js "README.md"]
  /\ addFileUpdater (buildFileTree (js "t1")) (js "n.txt") (js "z") Sample.tree
     = [ Node.mkFileNode (js "a") Node.file (js "a") (Some []) (Some 0)
           (Some (js "t1")) None;
         Node.mkFileNode (js "README.md") Node.file (js "README.md")
           (Some (js "hi")) (Some 2) (Some (js "t1")) None;
         Node.mkFileNode (js "n.txt") Node.file (js "n.txt")
           (Some (js "z")) (Some 1) (Some (js "t1")) None ].
Proof. split; vm_compute; reflexivity. Qed.

(** The builder on the example of the specification. *)
Example buildFileTree_two_files_in_a :
  buildFileTree (js "t1")
    [Flat.mkFlat (js "a/b.txt") (js "x"); Flat.mkFlat (js "a/c.txt") (js "y")]
  = [ Node.mkFileNode (js "a") Node.directory (js "a") None None None
        (Some [ Node.mkFileNode (js "b.txt") Node.file (js "a/b.txt")
                  (Some (js "x")) (Some 1) (Some (js "t1")) None;
                Node.mkFileNode (js "c.txt") Node.file (js "a/c.txt")
                  (Some (js "y")) (Some 1) (Some (js "t1")) None ]) ].
Proof. vm_compute. reflexivity. Qed.

(** ** More on [readEnvVariable] *)

(** X1. The system variable comes first: when it has a non-empty value, that
    value is returned and its use is logged, whatever the VITE_ variable
    holds and whether or not the variable is required. *)
Theorem readEnvVariable_system_first (systemVar viteVar : jsstring)
  (isRequired : bool) (w : World) (c : N) (value : jsstring) :
  processEnv w !! systemVar = Some (c :: value) ->
  readEnvVariable systemVar viteVar isRequired w
  = Some (Returned (Some (c :: value)),
          setLogs
            (logs w
             ++ [(ConsoleLog,
                  [LStr (js "Using system environment variable for: "
                         ++ systemVar)]);
                 (Stdout,
                  [LStr (ESC
                         ++ js "[32m[Terminal] Using system environment variable for: "
                         ++ systemVar ++ ESC ++ js "[0m" ++ LF)])])
            w).
Proof.
  intros Hsys. unfold readEnvVariable, bind, getWorld.
  rewrite Hsys. cbn [truthyString emit ret]. cbn.
  rewrite <- app_assoc. reflexivity.
Qed.

Lemma readEnvVariable_system_first_sample :
  readEnvVariable (js "SUPABASE_URL") (js "VITE_SUPABASE_URL") false
    (initialWorld {[ js "SUPABASE_URL" := js "A" ]}
                  {[ js "VITE_SUPABASE_URL" := js "B" ]})
  = Some (Returned (Some (js "A")),
          setLogs
            (logs (initialWorld {[ js "SUPABASE_URL" := js "A" ]}
                                {[ js "VITE_SUPABASE_URL" := js "B" ]})
             ++ [(ConsoleLog,
                  [LStr (js "Using system environment variable for: "
                         ++ js "SUPABASE_URL")]);
                 (Stdout,
                  [LStr (ESC
                         ++ js "[32m[Terminal] Using system environment variable for: "
                         ++ js "SUPABASE_URL" ++ ESC ++ js "[0m" ++ LF)])])
            (initialWorld {[ js "SUPABASE_URL" := js "A" ]}
                          {[ js "VITE_SUPABASE_URL" := js "B" ]})).
Proof.
  apply (readEnvVariable_system_first (js "SUPABASE_URL")
           (js "VITE_SUPABASE_URL") false
           (initialWorld {[ js "SUPABASE_URL" := js "A" ]}
                         {[ js "VITE_SUPABASE_URL" := js "B" ]})
           65%N []).
  vm_compute. reflexivity.
Defined.

(** X2. [readEnvVariable] throws exactly when the variable is required and
    neither name has a non-empty value; it returns [undefined] exactly
    when the variable is optional and neither has; a string it returns is
    never empty; and it changes neither environment. *)
Theorem readEnvVariable_outcomes (systemVar viteVar : jsstring)
  (isRequired : bool) (w : World) :
  exists c w',
    readEnvVariable systemVar viteVar isRequired w = Some (c, w')
    /\ ((exists e, c = Threw e) <->
        isRequired = true
        /\ truthyString (processEnv w !! systemVar) = false
        /\ truthyString (importMetaEnv w !! viteVar) = false)
    /\ (c = Returned None <->
        isRequired = false
        /\ truthyString (processEnv w !! systemVar) = false
        /\ truthyString (importMetaEnv w !! viteVar) = false)
    /\ (forall value, c = Returned (Some value) -> value <> [])
    /\ processEnv w' = processEnv w
    /\ importMetaEnv w' = importMetaEnv w.
Proof.
  unfold readEnvVariable, bind, getWorld.
  destruct (processEnv w !! systemVar) as [[|c1 v1]|] eqn:Hsys;
    cbn [truthyString];
    try (destruct (importMetaEnv w !! viteVar) as [[|c2 v2]|] eqn:Hvite;
         cbn [truthyString]; try destruct isRequired);
    eexists _, _; (split; [reflexivity|]); cbn;
    repeat match goal with
      | |- _ /\ _ => split
      | |- _ <-> _ => split
      | |- _ -> _ => intro
      | H : exists _, _ |- _ => destruct H
      | H : _ /\ _ |- _ => destruct H
      end;
    try discriminate; try reflexivity; try congruence; eauto.
Qed.

(** ** More on [buildStoragePath] *)

Lemma trimStart_id (s : jsstring) :
  startsWithWhiteSpace s = false -> trimStart s = s.
Proof. destruct s as [|c s]; cbn; [reflexivity|]. intros ->. reflexivity. Qed.

Lemma trim_id (s : jsstring) :
  startsWithWhiteSpace s = false ->
  startsWithWhiteSpace (rev s) = false ->
  trim s = s.
Proof.
  intros Hhead Hlast. unfold trim, trimEnd.
  rewrite (trimStart_id s Hhead), (trimStart_id (rev s) Hlast).
  apply rev_involutive.
Qed.

Lemma trim_fixed_ends (s : jsstring) :
  trim s = s ->
  startsWithWhiteSpace s = false /\ startsWithWhiteSpace (rev s) = false.
Proof.
  intros Hfix. destruct (trim_trimmedOf s) as (l & r & _ & _ & _ & Hh & Hl).
  rewrite Hfix in Hh, Hl. split; assumption.
Qed.

Lemma startsWithWhiteSpace_app (a b : jsstring) :
  a <> [] -> startsWithWhiteSpace (a ++ b) = startsWithWhiteSpace a.
Proof. destruct a; [contradiction|reflexivity]. Qed.

(** Two trimmed strings joined by a slash are trimmed. *)
Lemma trim_joined (a b : jsstring) :
  trim a = a -> trim b = b -> a <> [] -> b <> [] ->
  trim (a ++ js "/" ++ b) = a ++ js "/" ++ b.
Proof.
  intros Ha Hb Na Nb.
  apply trim_fixed_ends in Ha as [Ha _]. apply trim_fixed_ends in Hb as [_ Hb].
  apply trim_id.
  - rewrite startsWithWhiteSpace_app by exact Na. exact Ha.
  - rewrite !rev_app_distr, <- app_assoc.
    rewrite startsWithWhiteSpace_app; [exact Hb|].
    intros Hrev. apply Nb. rewrite <- (rev_involutive b), Hrev. reflexivity.
Qed.

(** X17. A slash inside a component moves the border between the components:
    the model [m/x] with the file [f] and the model [m] with the file
    [x/f] have the same storage path, so the two address one object. *)
Theorem buildStoragePath_slash_shifts_border (userId m x f : jsstring) :
  trim m = m -> trim x = x -> trim f = f ->
  m <> [] -> x <> [] -> f <> [] ->
  buildStoragePath userId (m ++ js "/" ++ x) f
  = buildStoragePath userId m (x ++ js "/" ++ f).
Proof.
  intros Hm Hx Hf Nm Nx Nf. unfold buildStoragePath.
  rewrite (trim_joined m x Hm Hx Nm Nx), (trim_joined x f Hx Hf Nx Nf).
  rewrite Hm, Hf.
  destruct (trim userId) as [|c u]; [reflexivity|].
  destruct m as [|cm m]; [contradiction|].
  destruct f as [|cf f]; [contradiction|].
  destruct x as [|cx x]; [contradiction|].
  cbn [app]. do 2 f_equal. rewrite <- !app_assoc. reflexivity.
Qed.

Lemma buildStoragePath_slash_shifts_border_sample :
  buildStoragePath (js "u") (js "m" ++ js "/" ++ js "x") (js "f")
  = buildStoragePath (js "u") (js "m") (js "x" ++ js "/" ++ js "f").
Proof.
  apply (buildStoragePath_slash_shifts_border (js "u") (js "m") (js "x")
           (js "f")); first [reflexivity | discriminate].
Defined.

(** X16. With ids that have no slash, the storage path is the prefix
    "{userId}/models/{modelId}/" of the trimmed ids followed by the
    trimmed file name without its leading slashes and with its runs of
    slashes collapsed: every object of a model is stored under the
    prefix of the model. *)
Theorem buildStoragePath_under_prefix (userId modelId filename : jsstring) :
  noSlash userId = true -> noSlash modelId = true ->
  trim userId <> [] -> trim modelId <> [] -> trim filename <> [] ->
  buildStoragePath userId modelId filename
  = Returned
      ((trim userId ++ js "/models/" ++ trim modelId ++ js "/")
       ++ collapseRuns (dropSlashes (trim filename))).
Proof.
  intros Hu Hm Nu Nm Nf.
  apply noSlash_trim in Hu, Hm.
  rewrite buildStoragePath_returns by assumption. f_equal.
  rewrite collapseRuns_noSlash_app by exact Hu.
  rewrite <- !app_assoc. f_equal.
  change (js "/models/") with (slash :: js "models" ++ [slash]).
  change (js "/") with [slash].
  cbn [app]. rewrite <- !app_assoc. cbn [app].
  rewrite collapseRuns_slash_keeps by reflexivity. f_equal.
  rewrite collapseRuns_noSlash_app by reflexivity. f_equal.
  rewrite collapseRuns_slash_keeps
    by (apply headIsSlash_noSlash_app; assumption). f_equal.
  rewrite collapseRuns_noSlash_app by exact Hm. f_equal.
  apply collapseRuns_slash.
Qed.

Lemma buildStoragePath_under_prefix_sample :
  buildStoragePath (js " u1 ") (js "m1") (js "//dir//a.txt ")
  = Returned
      ((trim (js " u1 ") ++ js "/models/" ++ trim (js "m1") ++ js "/")
       ++ collapseRuns (dropSlashes (trim (js "//dir//a.txt ")))).
Proof.
  apply (buildStoragePath_under_prefix (js " u1 ") (js "m1")
           (js "//dir//a.txt ")); first [reflexivity | discriminate].
Defined.

(** ** [loadFiles] and [uploadFiles] of [useModelFiles] *)

Section UseModelFilesFacts.

Import UseModelFiles.

Variable buildFileTree : list Flat.FlatRecord -> list Node.FileNode.
Variable listed : jsstring -> jsstring -> Completion (list jsstring).
Variable downloaded : nat -> jsstring -> jsstring -> jsstring -> Completion jsstring.
Variable uploaded
  : nat -> jsstring -> jsstring -> jsstring -> jsstring -> Completion jsstring.
Variable firstRejection : list Thrown -> Thrown.

Lemma imap_paths (userId modelId : jsstring) (filePaths : list jsstring) :
  forall (k : nat),
    map Flat.path
      (imap (fun i => loadedFile downloaded userId modelId (k + i)) filePaths)
    = filePaths.
Proof.
  induction filePaths as [|p filePaths IH]; intros k; [reflexivity|].
  cbn [imap map]. f_equal.
  - unfold loadedFile. destruct (downloaded _ _ _ _); reflexivity.
  - rewrite <- (IH (S k)) at 2. f_equal. apply imap_ext.
    intros i x _. cbn. f_equal. lia.
Qed.

(** X22. Without a user, or with an empty model id, [loadFiles] empties the
    tree and does nothing else: [loading], true at first, is not set to
    false, and [error] is not cleared.  With a user and a model id it
    ends with [loading] false.  When the listing succeeds, [error] is
    null whatever the downloads did: the tree is built from one record
    per listed path, in the order of the listing, with the downloaded
    content, or with empty content where the download failed.  When the
    listing fails, the tree is left as it was and the error is stored, as
    an Error object. *)
Theorem loadFiles_settles (user : option User) (modelId : jsstring)
  (s : State) :
  (user = None \/ modelId = [] ->
   files (loadFiles buildFileTree listed downloaded user modelId s) = []
   /\ loading (loadFiles buildFileTree listed downloaded user modelId s)
      = loading s
   /\ error (loadFiles buildFileTree listed downloaded user modelId s)
      = error s)
  /\ (forall u,
        user = Some u -> modelId <> [] ->
        loading (loadFiles buildFileTree listed downloaded user modelId s)
        = false
        /\ match listed (id u) modelId with
           | Returned filePaths =>
               exists records,
                 files (loadFiles buildFileTree listed downloaded user modelId s)
                 = buildFileTree records
                 /\ map Flat.path records = filePaths
                 /\ (forall i path,
                       filePaths !! i = Some path ->
                       records !! i
                       = Some (Flat.mkFlat path
                                 (match downloaded i (id u) modelId path with
                                  | Returned content => content
                                  | Threw _ => []
                                  end)))
                 /\ error (loadFiles buildFileTree listed downloaded user
                             modelId s)
                    = None
           | Threw err =>
               files (loadFiles buildFileTree listed downloaded user modelId s)
               = files s
               /\ exists message,
                    error (loadFiles buildFileTree listed downloaded user
                             modelId s)
                    = Some (ErrorObj message)
           end).
Proof.
  split.
  { intros [->| ->]; [|destruct user]; repeat split. }
  intros u -> Hmodel. destruct modelId as [|c modelId]; [contradiction|].
  unfold loadFiles. destruct (listed (id u) (c :: modelId)) as [filePaths|err].
  - split; [reflexivity|].
    exists (imap (loadedFile downloaded (id u) (c :: modelId)) filePaths).
    split; [reflexivity|]. split; [apply (imap_paths _ _ _ 0)|].
    split; [|reflexivity].
    intros i path Hi. rewrite list_lookup_imap, Hi. cbn.
    unfold loadedFile. destruct (downloaded _ _ _ _); reflexivity.
  - split; [reflexivity|]. split; [reflexivity|].
    destruct err; eexists; reflexivity.
Qed.

(** The records of the files that can be read, in their order. *)
Lemma startUploads_records (userId modelId : jsstring)
  (fileList : list PickedFile) :
  forall i,
    map (fun u => Flat.mkFlat (fst (fst u)) (snd (fst u)))
      (startUploads uploaded userId modelId i fileList)
    = omap (fun f =>
              match text f with
              | Returned content => Some (Flat.mkFlat (name f) content)
              | Threw _ => None
              end)
           fileList.
Proof.
  induction fileList as [|f fileList IH]; intros i; [reflexivity|].
  simpl. destruct (text f) as [content|e]; simpl.
  - rewrite IH. reflexivity.
  - apply IH.
Qed.

Lemma startUploads_rejection (userId modelId : jsstring)
  (fileList : list PickedFile) :
  forall k i f content e,
    fileList !! i = Some f ->
    text f = Returned content ->
    uploaded (k + i) userId modelId (name f) content = Threw e ->
    In e (rejections (startUploads uploaded userId modelId k fileList)).
Proof.
  induction fileList as [|g fileList IH]; intros k i f content e Hi Htext Hup;
    [discriminate Hi|].
  destruct i as [|i]; cbn [startUploads].
  - injection Hi as ->. rewrite Htext. rewrite Nat.add_0_r in Hup.
    unfold rejections. simpl. rewrite Hup. left. reflexivity.
  - cbn in Hi. assert (Hrest : In e (rejections
                                        (startUploads uploaded userId modelId
                                           (S k) fileList))).
    { apply (IH (S k) i f content e Hi Htext).
      rewrite <- Hup. f_equal. lia. }
    destruct (text g) as [c|_]; [|exact Hrest].
    unfold rejections in *. simpl.
    destruct (uploaded k userId modelId (name g) c); [exact Hrest|].
    right. exact Hrest.
Qed.

(** X23. One upload that fails fails the batch: [uploadFiles] throws, stores
    the error (of one of the uploads that failed, as an Error object) and
    leaves the tree as it was; none of the files is merged into it, also
    not those that were uploaded. *)
Theorem uploadFiles_one_failure_fails_all (u : User) (modelId : jsstring)
  (fileList : list PickedFile) (s : State)
  (i : nat) (f : PickedFile) (content : jsstring) (e : Thrown) :
  (forall l, l <> [] -> In (firstRejection l) l) ->
  fileList !! i = Some f ->
  text f = Returned content ->
  uploaded i (id u) modelId (name f) content = Threw e ->
  exists e',
    In e' (rejections (startUploads uploaded (id u) modelId 0 fileList))
    /\ uploadFiles buildFileTree uploaded firstRejection (Some u) modelId
         fileList s
       = (Threw (orError e' (js "Failed to upload files")),
          mkState (files s) false
            (Some (orError e' (js "Failed to upload files")))).
Proof.
  intros Hfirst Hi Htext Hup.
  pose proof (startUploads_rejection (id u) modelId fileList 0 i f content e
                Hi Htext Hup) as Hin.
  unfold uploadFiles.
  destruct (rejections (startUploads uploaded (id u) modelId 0 fileList))
    as [|e0 es] eqn:Hrej; [destruct Hin|].
  exists (firstRejection (e0 :: es)).
  split; [apply Hfirst; discriminate|reflexivity].
Qed.

(** X24. When no upload fails, [uploadFiles] merges the files that could be
    read, in their order, into the tree: a file whose text cannot be read
    is skipped and does not fail the batch.  [error] is left as it was. *)
Theorem uploadFiles_merges_readable (u : User) (modelId : jsstring)
  (fileList : list PickedFile) (s : State) :
  (forall i f content,
      fileList !! i = Some f -> text f = Returned content ->
      exists p, uploaded i (id u) modelId (name f) content = Returned p) ->
  uploadFiles buildFileTree uploaded firstRejection (Some u) modelId fileList s
  = (Returned tt,
     mkState
       (buildFileTree
          (flattenCurrent (files s)
           ++ omap (fun f =>
                      match text f with
                      | Returned content => Some (Flat.mkFlat (name f) content)
                      | Threw _ => None
                      end)
                   fileList))
       false (error s)).
Proof.
  intros Hall.
  assert (Hnone : forall l k,
             (forall i f content,
                 l !! i = Some f -> text f = Returned content ->
                 exists p,
                   uploaded (k + i) (id u) modelId (name f) content
                   = Returned p) ->
             rejections (startUploads uploaded (id u) modelId k l) = []).
  { induction l as [|g l IH]; intros k Hl; [reflexivity|].
    cbn [startUploads].
    assert (Hrest : rejections (startUploads uploaded (id u) modelId (S k) l)
                    = []).
    { apply IH. intros i f content Hi Ht.
      destruct (Hl (S i) f content Hi Ht) as (p & Hp).
      exists p. rewrite <- Hp. f_equal. lia. }
    destruct (text g) as [c|e0] eqn:Hg; [|exact Hrest].
    destruct (Hl 0%nat g c eq_refl Hg) as (p & Hp).
    rewrite Nat.add_0_r in Hp.
    unfold rejections in *. simpl. rewrite Hp. exact Hrest. }
  unfold uploadFiles. rewrite (Hnone fileList 0%nat Hall).
  cbv zeta. unfold uploadFilesUpdater. cbv zeta.
  rewrite map_map. cbn [Flat.path Flat.content].
  rewrite <- startUploads_records with (userId := id u) (modelId := modelId)
                                       (i := 0%nat).
  reflexivity.
Qed.

End UseModelFilesFacts.

(** ** The authentication context *)

(** X26. [signIn], [signUp] and [signOut] never change the user, and end with
    [loading] false; what the call of the authentication client completes
    with decides the rest.  When it replies without error the function
    returns and [error] is cleared.  When it replies with an error, or
    rejects, the function throws and [error] is left as it was: what is
    thrown is the error of the reply, or the reason of the rejection, if
    that is an Error object, and otherwise an Error "Failed to sign in",
    "Failed to sign up" or "Failed to sign out". *)
Theorem auth_requests_leave_user
  (signInWithPassword authSignUp : jsstring -> jsstring -> Completion (option Thrown))
  (authSignOut : Completion (option Thrown))
  (email password : jsstring) (s : Auth.State) :
  let decides (fallback : jsstring) (result : Completion (option Thrown))
              (r : Completion unit * Auth.State) :=
    Auth.user (snd r) = Auth.user s
    /\ Auth.loading (snd r) = false
    /\ Auth.mounted (snd r) = Auth.mounted s
    /\ match result with
       | Returned None =>
           fst r = Returned tt /\ Auth.error (snd r) = None
       | Returned (Some (ErrorObj message)) | Threw (ErrorObj message) =>
           fst r = Threw (ErrorObj message)
           /\ Auth.error (snd r) = Auth.error s
       | Returned (Some (NonError _)) | Threw (NonError _) =>
           fst r = Threw (ErrorObj fallback)
           /\ Auth.error (snd r) = Auth.error s
       end in
  decides (js "Failed to sign in") (signInWithPassword email password)
    (Auth.signIn signInWithPassword email password s)
  /\ decides (js "Failed to sign up") (authSignUp email password)
       (Auth.signUp authSignUp email password s)
  /\ decides (js "Failed to sign out") authSignOut
       (Auth.signOut authSignOut s).
Proof.
  cbv zeta. unfold Auth.signIn, Auth.signUp, Auth.signOut, Auth.request.
  split; [|split].
  - destruct (signInWithPassword email password) as [[[m|r]|]|[m|r]];
      cbn; repeat split.
  - destruct (authSignUp email password) as [[[m|r]|]|[m|r]];
      cbn; repeat split.
  - destruct authSignOut as [[[m|r]|]|[m|r]]; cbn; repeat split.
Qed.

(** After the cleanup of the effect the state is out of reach of the
    session: neither the callback of [onAuthStateChange] nor the adoption
    of the initial session changes it. *)
Theorem auth_unmounted_is_inert (session : option UseModelFiles.User)
  (getSession : Completion Auth.SessionReply) (s : Auth.State) :
  Auth.onAuthStateChange session (Auth.cleanup s) = Auth.cleanup s
  /\ Auth.adoptSession getSession (Auth.cleanup s) = Auth.cleanup s.
Proof.
  split; [reflexivity|]. unfold Auth.adoptSession.
  destruct getSession as [[su [se|]]|err]; reflexivity.
Qed.

(** ** The properties on sample inputs *)

Lemma waitForConnection_without_window_sample :
  waitForConnection Sample.probeUp 0 Sample.world0
  = Some (Returned false, Sample.world0).
Proof.
  apply (waitForConnection_without_window Sample.probeUp 0 Sample.world0).
  lia.
Defined.

Lemma withRetry_connected_skips_probe_sample :
  exists c w',
    withRetry Sample.probeDown Sample.noJitter Sample.truthyOrNull Cases.flaky
      5 1000 Sample.connectedWorld
    = Some (c, w')
    /\ probesIssued w' = probesIssued Sample.connectedWorld
    /\ isConnected w' = true.
Proof.
  apply (withRetry_connected_skips_probe Sample.probeDown Sample.noJitter
           Sample.truthyOrNull Cases.flaky 5 1000 Sample.connectedWorld).
  reflexivity.
Defined.

(** Two attempts lost to a network error, the third resolves: also with
    a backend that answers no probe. *)
Lemma withRetry_recovers_sample :
  exists w0 w',
    ensureConnection Sample.probeDown Sample.world0 = Some (Returned tt, w0)
    /\ withRetry Sample.probeDown Sample.noJitter Sample.truthyOrNull
         Cases.flaky 5 1000 Sample.world0
       = Some (Returned (Some (js "ok")), w')
    /\ opsInvoked w' = (opsInvoked Sample.world0 + 2 + 1)%nat
    /\ length (sleeps w') = (length (sleeps w0) + 2)%nat.
Proof.
  apply (withRetry_recovers Sample.probeDown Sample.noJitter
           Sample.truthyOrNull Cases.flaky 5 1000 Sample.world0 2
           (Some (js "ok")) 30%N).
  - lia.
  - intros i Hi.
    exists (ErrorObj (js "NetworkError when attempting to fetch resource.")),
      30.
    destruct i as [|[|i]]; [split; reflexivity..|lia].
  - reflexivity.
  - lia.
  - reflexivity.
Defined.

Lemma withRetry_times_out_sample :
  exists w0 w',
    ensureConnection Sample.probeUp Sample.world0 = Some (Returned tt, w0)
    /\ withRetry Sample.probeUp Sample.noJitter Sample.truthyOrNull
         Cases.hangs 3 1000 Sample.world0
       = Some (Threw (ErrorObj (js "Request timeout")), w')
    /\ opsInvoked w' = (opsInvoked Sample.world0 + Z.to_nat 3)%nat
    /\ now w0 + 10000 * 3 <= now w'.
Proof.
  apply (withRetry_times_out Sample.probeUp Sample.noJitter
           Sample.truthyOrNull Cases.hangs 3 1000 Sample.world0).
  - intros k. reflexivity.
  - lia.
Defined.

Lemma storage_calls_validate_first_sample :
  uploadFile Sample.probeUp Sample.noJitter Cases.uploadStores
    (js "u1") (js "  ") (js "a.txt") (Text (js "x")) Sample.world0
  = Some (Threw (ErrorObj (js "Invalid path components")), Sample.world0)
  /\ downloadFile Sample.probeUp Sample.noJitter Cases.downloadGives
       (js "u1") (js "  ") (js "a.txt") Sample.world0
     = Some (Threw (ErrorObj (js "Invalid path components")), Sample.world0)
  /\ deleteFile Sample.probeUp Sample.noJitter Cases.removeDone
       (js "u1") (js "  ") (js "a.txt") Sample.world0
     = Some (Threw (ErrorObj (js "Invalid path components")), Sample.world0).
Proof.
  apply (storage_calls_validate_first Sample.probeUp Sample.noJitter
           Cases.uploadStores Cases.downloadGives Cases.removeDone
           (js "u1") (js "  ") (js "a.txt") (Text (js "x")) Sample.world0).
  right. left. reflexivity.
Defined.

(** A reply with an error whose message reads "Failed to fetch" is
    thrown after the one call: it is not retried. *)
Lemma uploadFile_reply_decides_sample :
  exists w0,
    ensureConnection Sample.probeUp Sample.connectedWorld
    = Some (Returned tt, w0)
    /\ uploadFile Sample.probeUp Sample.noJitter Cases.uploadRefused
         (js "u1") (js "m1") (js "a.txt") (Text (js "x"))
         Sample.connectedWorld
       = Some (Threw (ErrorObj (js "Failed to fetch")),
               attempted (Z.of_N 40) w0)
    /\ opsInvoked (attempted (Z.of_N 40) w0)
       = S (opsInvoked Sample.connectedWorld).
Proof.
  apply (uploadFile_reply_decides Sample.probeUp Sample.noJitter
           Cases.uploadRefused (js "u1") (js "m1") (js "a.txt")
           (Text (js "x")) Sample.connectedWorld (js "u1/models/m1/a.txt")
           (ReplyError (ErrorObj (js "Failed to fetch"))) 40%N).
  - reflexivity.
  - vm_compute. discriminate.
  - reflexivity.
  - lia.
Defined.

Lemma downloadFile_deleteFile_reply_decides_sample :
  (forall (r : Reply jsstring) (ms : N),
      Cases.downloadGives (opsInvoked Sample.world0) (js "model-files")
        (Download (js "u1/models/m1/a.txt"))
      = Resolves r ms ->
      Z.of_N ms < 10000 ->
      exists w',
        downloadFile Sample.probeUp Sample.noJitter Cases.downloadGives
          (js "u1") (js "m1") (js "a.txt") Sample.world0
        = Some (match r with
                | ReplyData text => Returned text
                | ReplyError error => Threw error
                end, w')
        /\ opsInvoked w' = S (opsInvoked Sample.world0))
  /\ (forall (r : Reply unit) (ms : N),
        Cases.removeDone (opsInvoked Sample.world0) (js "model-files")
          (Remove [js "u1/models/m1/a.txt"])
        = Resolves r ms ->
        Z.of_N ms < 10000 ->
        exists w',
          deleteFile Sample.probeUp Sample.noJitter Cases.removeDone
            (js "u1") (js "m1") (js "a.txt") Sample.world0
          = Some (match r with
                  | ReplyData _ => Returned tt
                  | ReplyError error => Threw error
                  end, w')
          /\ opsInvoked w' = S (opsInvoked Sample.world0)).
Proof.
  apply (downloadFile_deleteFile_reply_decides Sample.probeUp Sample.noJitter
           Cases.downloadGives Cases.removeDone (js "u1") (js "m1")
           (js "a.txt") Sample.world0 (js "u1/models/m1/a.txt")).
  reflexivity.
Defined.

(** The folder entry, which comes out empty, is left out. *)
Lemma listFiles_strips_prefix_sample :
  exists listed w',
    listFiles Sample.probeUp Sample.noJitter Cases.listsFullPaths
      (js "u1") (js "m1") Sample.world0
    = Some (Returned listed, w')
    /\ opsInvoked w' = S (opsInvoked Sample.world0)
    /\ Forall (fun name => name <> []) listed
    /\ (forall relative,
          map (fun name => (js "u1" ++ js "/models/" ++ js "m1" ++ js "/") ++ name)
              [js "a.txt"; []; js "b.txt"]
          = map (fun name => (js "u1" ++ js "/models/" ++ js "m1" ++ js "/")
                             ++ name)
                relative ->
          listed = filter (fun name => name <> []) relative)
    /\ (Forall
          (fun name =>
             includes name (js "u1" ++ js "/models/" ++ js "m1" ++ js "/")
             = false)
          (map (fun name => (js "u1" ++ js "/models/" ++ js "m1" ++ js "/") ++ name)
               [js "a.txt"; []; js "b.txt"]) ->
        listed
        = filter (fun name => name <> [])
            (map (fun name => (js "u1" ++ js "/models/" ++ js "m1" ++ js "/")
                               ++ name)
                 [js "a.txt"; []; js "b.txt"])).
Proof.
  apply (listFiles_strips_prefix Sample.probeUp Sample.noJitter
           Cases.listsFullPaths (js "u1") (js "m1") Sample.world0
           (map (fun name => (js "u1" ++ js "/models/" ++ js "m1" ++ js "/")
                              ++ name)
                [js "a.txt"; []; js "b.txt"])
           40%N).
  - reflexivity.
  - lia.
Defined.

Example listFiles_of_full_paths :
  match
    listFiles Sample.probeUp Sample.noJitter Cases.listsFullPaths
      (js "u1") (js "m1") Sample.world0
  with
  | Some (c, _) => Some c
  | None => None
  end
  = Some (Returned [js "a.txt"; js "b.txt"]).
Proof. vm_compute. reflexivity. Qed.

Lemma addFile_blank_name_sends_nothing_sample :
  addFile Sample.probeUp Sample.noJitter Cases.uploadStores Cases.anyTree
    (Some Cases.alice) (js "m1") (js "   ") (js "x") UseModelFiles.initial
    Sample.world0
  = Some (Threw (ErrorObj (js "Invalid path components")),
          UseModelFiles.mkState (UseModelFiles.files UseModelFiles.initial)
            false (Some (ErrorObj (js "Invalid path components"))),
          Sample.world0).
Proof.
  apply (addFile_blank_name_sends_nothing Sample.probeUp Sample.noJitter
           Cases.uploadStores Cases.anyTree Cases.alice (js "m1") (js "   ")
           (js "x") UseModelFiles.initial Sample.world0).
  reflexivity.
Defined.

Lemma uploadFiles_one_failure_fails_all_sample :
  exists e',
    In e' (rejections
             (startUploads Cases.uploadsFirst
                (UseModelFiles.id Cases.alice) (js "m1") 0 Cases.picked))
    /\ uploadFiles Cases.anyTree Cases.uploadsFirst Cases.firstOf
         (Some Cases.alice) (js "m1") Cases.picked UseModelFiles.initial
       = (Threw (orError e' (js "Failed to upload files")),
          UseModelFiles.mkState (UseModelFiles.files UseModelFiles.initial)
            false (Some (orError e' (js "Failed to upload files")))).
Proof.
  apply (uploadFiles_one_failure_fails_all Cases.anyTree Cases.uploadsFirst
           Cases.firstOf Cases.alice (js "m1") Cases.picked
           UseModelFiles.initial 1
           (mkPickedFile (js "b.txt") (Returned (js "y"))) (js "y")
           (NonError (js "[object Object]"))).
  - intros [|e l] Hl; [contradiction|left; reflexivity].
  - reflexivity.
  - reflexivity.
  - reflexivity.
Defined.

Lemma uploadFiles_merges_readable_sample :
  uploadFiles Cases.anyTree Cases.uploadsAll Cases.firstOf (Some Cases.alice)
    (js "m1") Cases.pickedUnreadable UseModelFiles.initial
  = (Returned tt,
     UseModelFiles.mkState
       (Cases.anyTree
          (flattenCurrent (UseModelFiles.files UseModelFiles.initial)
           ++ omap (fun f =>
                      match text f with
                      | Returned content => Some (Flat.mkFlat (name f) content)
                      | Threw _ => None
                      end)
                   Cases.pickedUnreadable))
       false (UseModelFiles.error UseModelFiles.initial)).
Proof.
  apply (uploadFiles_merges_readable Cases.anyTree Cases.uploadsAll
           Cases.firstOf Cases.alice (js "m1") Cases.pickedUnreadable
           UseModelFiles.initial).
  intros i f content _ _. eexists. reflexivity.
Defined.
